(** * Ride-dispatch simulation (Assignment 1): a shallow embedding

    The Python modules [location], [rider], [driver], [dispatcher] and
    [event] are embedded as Rocq functions.  Python objects are shared by
    reference, so drivers and riders live in a store indexed by object
    identity; the dispatcher's two lists hold references into it.  An
    exception aborts the run (no handler exists anywhere in the sources), so a
    raising call yields [Raise] and no state. *)

From Stdlib Require Import ZArith List String Bool Lia Arith.
Import ListNotations.
Local Open Scope Z_scope.

(** ** Exceptions and the result of a call *)

Inductive exn : Type :=
| ZeroDivisionError
| AttributeError
| OverflowError.

Inductive result (A : Type) : Type :=
| Ok (a : A)
| Raise (e : exn).

Arguments Ok {A} a.
Arguments Raise {A} e.

Definition bind {A B : Type} (m : result A) (k : A -> result B) : result B :=
  match m with
  | Ok a => k a
  | Raise e => Raise e
  end.

Notation "x <- m ;; k" := (bind m (fun x => k))
  (at level 61, m at next level, right associativity).
Notation "' pat <- m ;; k" := (bind m (fun x => match x with pat => k end))
  (at level 61, pat pattern, m at next level, right associativity).

(** ** location.py *)

Record Location : Type := mkLocation { row : Z; column : Z }.

(** [Location.__eq__]: component-wise, on two Location objects. *)
Definition Location_eq (self other : Location) : bool :=
  if (row self =? row other) && (column self =? column other)
  then true else false.

(** [manhattan_distance(origin, destination)]. *)
Definition manhattan_distance (origin destination : Location) : Z :=
  Z.abs (row origin - row destination)
  + Z.abs (column origin - column destination).

(** [a == b] where either operand may be [None] (an attribute that holds a
    Location or None).  [None == None] is true; with exactly one [None] the
    comparison ends in [Location.__eq__] reading [.row] of [None], which
    raises AttributeError. *)
Definition opt_Location_eq (a b : option Location) : result bool :=
  match a, b with
  | None, None => Ok true
  | Some x, Some y => Ok (Location_eq x y)
  | _, _ => Raise AttributeError
  end.

(** ** Python's [round(n / d)] on two ints

    [n / d] is true division: its result is the double (IEEE binary64)
    nearest to the exact quotient, a tie going to the double with the even
    significand; division by zero raises ZeroDivisionError, and a quotient
    that rounds beyond the largest double raises OverflowError.  [round] then
    takes the double to the nearest integer, a half going to the even
    neighbour.  A finite double is kept here as a pair [(m, e)] that stands
    for [m * 2 ^ e], with [|m| <= 2 ^ 53] and [e >= -1074]. *)

(** Rounding of the exact quotient [n / d] to the nearest integer, a half
    going to the even neighbour: the rounding rule of both steps. *)
Definition round_half_even_div (n d : Z) : Z :=
  let q := n / d in
  let r := n mod d in
  match Z.abs (2 * r) ?= Z.abs d with
  | Lt => q
  | Gt => q + 1
  | Eq => if Z.even q then q else q + 1
  end.

(** The exponent of the last binary place of the double nearest to [a / b],
    for [a, b > 0]: the one that puts the quotient between [2 ^ 52] and
    [2 ^ 53], and never less than that of the subnormal doubles. *)
Definition ulp_exponent (a b : Z) : Z :=
  let e1 := Z.log2 a - Z.log2 b - 53 in
  let e2 := if 2 ^ 53 * (b * 2 ^ Z.max 0 e1) <=? a * 2 ^ Z.max 0 (- e1)
            then e1 + 1 else e1 in
  Z.max e2 (-1074).

(** [n / d] on two ints. *)
Definition true_divide (n d : Z) : result (Z * Z) :=
  if d =? 0 then Raise ZeroDivisionError
  else if n =? 0 then Ok (0, 0)
  else
    let a := Z.abs n in
    let b := Z.abs d in
    let e := ulp_exponent a b in
    let m := round_half_even_div (a * 2 ^ Z.max 0 (- e)) (b * 2 ^ Z.max 0 e) in
    if (0 <=? e) && (2 ^ 1024 <=? m * 2 ^ e) then Raise OverflowError
    else Ok (Z.sgn n * Z.sgn d * m, e).

(** [round(x)] on a finite double. *)
Definition round_float (x : Z * Z) : Z :=
  let (m, e) := x in
  if 0 <=? e then m * 2 ^ e else round_half_even_div m (2 ^ (- e)).

(** [round(n / d)]. *)
Definition round_div (n d : Z) : result Z :=
  x <- true_divide n d ;;
  Ok (round_float x).

(** ** rider.py *)

Inductive Status : Type := WAITING | CANCELLED | SATISFIED.

Definition Status_eqb (a b : Status) : bool :=
  match a, b with
  | WAITING, WAITING | CANCELLED, CANCELLED | SATISFIED, SATISFIED => true
  | _, _ => false
  end.

Record Rider : Type := mkRider {
  r_id : string;
  origin : Location;
  r_destination : Location;
  patience : Z;
  status : Status
}.

(** [Rider.__init__]. *)
Definition Rider_init (id : string) (o d : Location) (p : Z) : Rider :=
  mkRider id o d p WAITING.

Definition set_status (r : Rider) (st : Status) : Rider :=
  mkRider (r_id r) (origin r) (r_destination r) (patience r) st.

(** ** driver.py *)

Record Driver : Type := mkDriver {
  d_id : string;
  location : option Location;
  speed : Z;
  is_idle : bool;
  destination : option Location
}.

(** [Driver.__init__]. *)
Definition Driver_init (identifier : string) (loc : Location) (sp : Z) : Driver :=
  mkDriver identifier (Some loc) sp true None.

(** [Driver.__eq__]: identifier, location, destination and speed, joined by
    short-circuit [and]; the idle flag is not compared. *)
Definition Driver_eq (self other : Driver) : result bool :=
  if String.eqb (d_id self) (d_id other) then
    b1 <- opt_Location_eq (location self) (location other) ;;
    if b1 then
      b2 <- opt_Location_eq (destination self) (destination other) ;;
      if b2 then Ok (speed self =? speed other) else Ok false
    else Ok false
  else Ok false.

(** [Driver.get_travel_time]. *)
Definition get_travel_time (self : Driver) (dest : Location) : result Z :=
  match location self with
  | None => Raise AttributeError
  | Some loc =>
      let distance := manhattan_distance loc dest in
      round_div distance (speed self)
  end.

(** [Driver.start_drive]: the returned pair is the travel time and the driver
    after the call. *)
Definition start_drive (self : Driver) (loc : Location) : result (Z * Driver) :=
  let self1 := mkDriver (d_id self) (location self) (speed self) false
                        (destination self) in
  travel_time <- get_travel_time self1 loc ;;
  let self2 := mkDriver (d_id self1) (location self1) (speed self1)
                        (is_idle self1) (Some loc) in
  Ok (travel_time, self2).

(** [Driver.end_drive]: three assignments, no check of the precondition. *)
Definition end_drive (self : Driver) : result Driver :=
  let self1 := mkDriver (d_id self) (destination self) (speed self)
                        (is_idle self) (destination self) in
  let self2 := mkDriver (d_id self1) (location self1) (speed self1)
                        (is_idle self1) None in
  Ok (mkDriver (d_id self2) (location self2) (speed self2) true
               (destination self2)).

(** [Driver.start_ride]. *)
Definition start_ride (self : Driver) (rider : Rider) : result (Z * Driver) :=
  let self1 := mkDriver (d_id self) (location self) (speed self)
                        (is_idle self) (Some (r_destination rider)) in
  let self2 := mkDriver (d_id self1) (location self1) (speed self1) false
                        (destination self1) in
  travel_time <- get_travel_time self2 (r_destination rider) ;;
  Ok (travel_time, self2).

(** [Driver.end_ride]: the same three assignments as [end_drive]. *)
Definition end_ride (self : Driver) : result Driver :=
  let self1 := mkDriver (d_id self) (destination self) (speed self)
                        (is_idle self) (destination self) in
  let self2 := mkDriver (d_id self1) (location self1) (speed self1)
                        (is_idle self1) None in
  Ok (mkDriver (d_id self2) (location self2) (speed self2) true
               (destination self2)).

(** ** The object store

    A reference is an object identity.  Every event, and both lists of the
    dispatcher, hold references; a mutation of a driver or rider is an update
    of the store and is seen through every reference to that object. *)

Definition ref : Type := nat.

Definition upd {A : Type} (f : ref -> A) (k : ref) (v : A) : ref -> A :=
  fun x => if Nat.eqb x k then v else f x.

(** ** monitor.py *)

Inductive ActorKind : Type := RIDER | DRIVER.
Inductive Action : Type := REQUEST | CANCEL | PICKUP | DROPOFF.

(** Modelled from the spec: the Monitor class (monitor.py is not among the
    sources).  It is an opaque sink receiving, per occurrence, the tuple
    (timestamp, actor kind, action, actor identity, position); it is kept
    here as the log of the tuples received, oldest first. *)
Record Notification : Type := mkNotification {
  n_time : Z;
  n_kind : ActorKind;
  n_action : Action;
  n_identity : string;
  n_position : option Location
}.

(** ** The state of a run: store, dispatcher and monitor *)

Record World : Type := mkWorld {
  drivers : ref -> Driver;
  riders : ref -> Rider;
  waiting_list : list ref;
  driver_registry : list ref;
  monitor : list Notification
}.

(** [Dispatcher.__init__] over a given store. *)
Definition Dispatcher_init (ds : ref -> Driver) (rs : ref -> Rider) : World :=
  mkWorld ds rs [] [] [].

Definition set_waiting_list (w : World) (l : list ref) : World :=
  mkWorld (drivers w) (riders w) l (driver_registry w) (monitor w).

Definition set_driver_registry (w : World) (l : list ref) : World :=
  mkWorld (drivers w) (riders w) (waiting_list w) l (monitor w).

Definition set_driver (w : World) (d : ref) (v : Driver) : World :=
  mkWorld (upd (drivers w) d v) (riders w) (waiting_list w)
          (driver_registry w) (monitor w).

Definition set_rider (w : World) (r : ref) (v : Rider) : World :=
  mkWorld (drivers w) (upd (riders w) r v) (waiting_list w)
          (driver_registry w) (monitor w).

(** [monitor.notify(...)]. *)
Definition notify (w : World) (n : Notification) : World :=
  mkWorld (drivers w) (riders w) (waiting_list w) (driver_registry w)
          (monitor w ++ [n]).

(** ** dispatcher.py *)

(** The [for driver in self.driver_registry] loop of [request_driver], with
    its two loop variables. *)
Fixpoint scan_registry (w : World) (target : Location) (registry : list ref)
    (fastest_driver : option ref) (fastest_time : Z)
    : result (option ref * Z) :=
  match registry with
  | [] => Ok (fastest_driver, fastest_time)
  | driver :: rest =>
      if is_idle (drivers w driver) then
        match fastest_driver with
        | None =>
            t <- get_travel_time (drivers w driver) target ;;
            scan_registry w target rest (Some driver) t
        | Some _ =>
            travel_time <- get_travel_time (drivers w driver) target ;;
            if travel_time <? fastest_time
            then scan_registry w target rest (Some driver) travel_time
            else scan_registry w target rest fastest_driver fastest_time
        end
      else scan_registry w target rest fastest_driver fastest_time
  end.

(** [Dispatcher.request_driver]. *)
Definition request_driver (rider : ref) (w : World)
    : result (option ref * World) :=
  if (List.length (driver_registry w) =? 0)%nat then
    Ok (None, set_waiting_list w (waiting_list w ++ [rider]))
  else
    '(fastest_driver, _) <-
       scan_registry w (origin (riders w rider)) (driver_registry w) None 0 ;;
    match fastest_driver with
    | None => Ok (None, set_waiting_list w (waiting_list w ++ [rider]))
    | Some d => Ok (Some d, w)
    end.

(** [driver in self.driver_registry]: each element is tried in order, first by
    identity and then with [Driver.__eq__]. *)
Fixpoint driver_in (w : World) (driver : ref) (registry : list ref)
    : result bool :=
  match registry with
  | [] => Ok false
  | e :: rest =>
      if Nat.eqb e driver then Ok true
      else
        b <- Driver_eq (drivers w e) (drivers w driver) ;;
        if b then Ok true else driver_in w driver rest
  end.

(** [Dispatcher.request_rider]. *)
Definition request_rider (driver : ref) (w : World)
    : result (option ref * World) :=
  known <- driver_in w driver (driver_registry w) ;;
  let w1 := if negb known
            then set_driver_registry w (driver_registry w ++ [driver])
            else w in
  match waiting_list w1 with
  | [] => Ok (None, w1)
  | head :: rest => Ok (Some head, set_waiting_list w1 rest)
  end.

(** [rider in self.waiting_list]: Rider defines no [__eq__], so membership is
    by identity. *)
Definition rider_in (rider : ref) (l : list ref) : bool :=
  existsb (fun e => Nat.eqb e rider) l.

(** [list.remove(rider)]: drops the first occurrence. *)
Fixpoint list_remove (rider : ref) (l : list ref) : list ref :=
  match l with
  | [] => []
  | e :: rest => if Nat.eqb e rider then rest else e :: list_remove rider rest
  end.

(** [Dispatcher.cancel_ride]. *)
Definition cancel_ride (rider : ref) (w : World) : World :=
  if rider_in rider (waiting_list w)
  then set_waiting_list w (list_remove rider (waiting_list w))
  else w.

(** ** event.py *)

Inductive Event : Type :=
| RiderRequest (timestamp : Z) (rider : ref)
| DriverRequest (timestamp : Z) (driver : ref)
| Cancellation (timestamp : Z) (rider : ref)
| Pickup (timestamp : Z) (rider driver : ref)
| Dropoff (timestamp : Z) (rider driver : ref).

Arguments RiderRequest timestamp%_Z rider%_nat.
Arguments DriverRequest timestamp%_Z driver%_nat.
Arguments Cancellation timestamp%_Z rider%_nat.
Arguments Pickup timestamp%_Z (rider driver)%_nat.
Arguments Dropoff timestamp%_Z (rider driver)%_nat.

Definition timestamp (e : Event) : Z :=
  match e with
  | RiderRequest t _ | DriverRequest t _ | Cancellation t _
  | Pickup t _ _ | Dropoff t _ _ => t
  end.

(** The six comparison methods of [Event]. *)
Definition Event_eq (self other : Event) : bool :=
  timestamp self =? timestamp other.
Definition Event_ne (self other : Event) : bool := negb (Event_eq self other).
Definition Event_lt (self other : Event) : bool :=
  timestamp self <? timestamp other.
Definition Event_le (self other : Event) : bool :=
  timestamp self <=? timestamp other.
Definition Event_gt (self other : Event) : bool := negb (Event_le self other).
Definition Event_ge (self other : Event) : bool := negb (Event_lt self other).

(** [RiderRequest.do]. *)
Definition RiderRequest_do (t : Z) (rider : ref) (w : World)
    : result (list Event * World) :=
  let w1 := notify w (mkNotification t RIDER REQUEST (r_id (riders w rider))
                        (Some (origin (riders w rider)))) in
  let events := [] in
  '(driver, w2) <- request_driver rider w1 ;;
  '(events, w3) <-
     match driver with
     | Some d =>
         '(travel_time, d') <-
            start_drive (drivers w2 d) (origin (riders w2 rider)) ;;
         Ok (events ++ [Pickup (t + travel_time) rider d], set_driver w2 d d')
     | None => Ok (events, w2)
     end ;;
  Ok (events ++ [Cancellation (t + patience (riders w3 rider)) rider], w3).

(** [DriverRequest.do]. *)
Definition DriverRequest_do (t : Z) (driver : ref) (w : World)
    : result (list Event * World) :=
  let w1 := notify w (mkNotification t DRIVER REQUEST (d_id (drivers w driver))
                        (location (drivers w driver))) in
  let events := [] in
  '(rider, w2) <- request_rider driver w1 ;;
  match rider with
  | Some r =>
      '(travel_time, d') <-
         start_drive (drivers w2 driver) (origin (riders w2 r)) ;;
      Ok (events ++ [Pickup (t + travel_time) r driver],
          set_driver w2 driver d')
  | None => Ok (events, w2)
  end.

(** [Cancellation.do]. *)
Definition Cancellation_do (t : Z) (rider : ref) (w : World)
    : result (list Event * World) :=
  let events := [] in
  if negb (Status_eqb (status (riders w rider)) SATISFIED) then
    let w1 := cancel_ride rider w in
    let w2 := set_rider w1 rider (set_status (riders w1 rider) CANCELLED) in
    let w3 := notify w2 (mkNotification t RIDER CANCEL (r_id (riders w2 rider))
                           (Some (origin (riders w2 rider)))) in
    Ok (events, w3)
  else Ok (events, w).

(** [Pickup.do]. *)
Definition Pickup_do (t : Z) (rider driver : ref) (w : World)
    : result (list Event * World) :=
  let events := [] in
  d1 <- end_drive (drivers w driver) ;;
  let w1 := set_driver w driver d1 in
  if Status_eqb (status (riders w1 rider)) WAITING then
    let w2 := notify w1 (mkNotification t RIDER PICKUP (r_id (riders w1 rider))
                           (Some (origin (riders w1 rider)))) in
    let w3 := notify w2 (mkNotification t DRIVER PICKUP
                           (d_id (drivers w2 driver))
                           (location (drivers w2 driver))) in
    '(travel_time, d2) <- start_ride (drivers w3 driver) (riders w3 rider) ;;
    let w4 := set_driver w3 driver d2 in
    let events := events ++ [Dropoff (t + travel_time) rider driver] in
    Ok (events, set_rider w4 rider (set_status (riders w4 rider) SATISFIED))
  else if Status_eqb (status (riders w1 rider)) CANCELLED then
    Ok (events ++ [DriverRequest t driver], w1)
  else Ok (events, w1).

(** [Dropoff.do]. *)
Definition Dropoff_do (t : Z) (rider driver : ref) (w : World)
    : result (list Event * World) :=
  let events := [] in
  d1 <- end_ride (drivers w driver) ;;
  let w1 := set_driver w driver d1 in
  let w2 := notify w1 (mkNotification t DRIVER DROPOFF
                         (d_id (drivers w1 driver))
                         (location (drivers w1 driver))) in
  Ok (events ++ [DriverRequest t driver], w2).

(** [event.do(dispatcher, monitor)], dispatched on the kind of event. *)
Definition do (e : Event) (w : World) : result (list Event * World) :=
  match e with
  | RiderRequest t r => RiderRequest_do t r w
  | DriverRequest t d => DriverRequest_do t d w
  | Cancellation t r => Cancellation_do t r w
  | Pickup t r d => Pickup_do t r d w
  | Dropoff t r d => Dropoff_do t r d w
  end.

(** ** container.py *)

(** Modelled from the spec: an entry of the event queue (class PriorityQueue
    of container.py, which is not among the sources).  Section 4.2 of the
    spec keys the queue by the timestamp and, among equal timestamps, by the
    insertion sequence number; an entry is an event with the number it was
    given. *)
Record Entry : Type := mkEntry { entry_event : Event; entry_seq : nat }.

(** Modelled from the spec: the event queue of container.py, not among the
    sources: the entries it holds and the sequence number of the next
    insertion. *)
Record PriorityQueue : Type := mkPriorityQueue {
  items : list Entry;
  next_seq : nat
}.

(** Modelled from the spec: the constructor of the absent PriorityQueue, an
    empty queue. *)
Definition PriorityQueue_init : PriorityQueue := mkPriorityQueue [] 0.

(** Modelled from the spec: the order of the absent PriorityQueue, section
    4.2: timestamp ascending, by the comparison of Event, then insertion
    sequence number ascending among events that compare equal. *)
Definition Entry_lt (x y : Entry) : bool :=
  Event_lt (entry_event x) (entry_event y)
  || (Event_eq (entry_event x) (entry_event y)
      && (entry_seq x <? entry_seq y)%nat).

(** Modelled from the spec: [insert] of the absent PriorityQueue (called
    [add] by Simulation.run): the event gets the next sequence number. *)
Definition PriorityQueue_add (q : PriorityQueue) (e : Event) : PriorityQueue :=
  mkPriorityQueue (items q ++ [mkEntry e (next_seq q)]) (S (next_seq q)).

(** Modelled from the spec: [isEmpty] of the absent PriorityQueue. *)
Definition PriorityQueue_is_empty (q : PriorityQueue) : bool :=
  match items q with
  | [] => true
  | _ :: _ => false
  end.

(** Modelled from the spec: the least entry of a non-empty list of entries
    of the absent PriorityQueue, [x] being the least so far. *)
Fixpoint least (x : Entry) (l : list Entry) : Entry :=
  match l with
  | [] => x
  | y :: rest => if Entry_lt y x then least y rest else least x rest
  end.

(** Modelled from the spec: the entries of the absent PriorityQueue without
    the one numbered [n]. *)
Fixpoint without (n : nat) (l : list Entry) : list Entry :=
  match l with
  | [] => []
  | y :: rest =>
      if (entry_seq y =? n)%nat then rest else y :: without n rest
  end.

(** Modelled from the spec: [extractMin] of the absent PriorityQueue (called
    [remove] by Simulation.run): the least event and the queue without it;
    [None] stands for the EmptyQueueError of an empty queue. *)
Definition PriorityQueue_remove (q : PriorityQueue)
    : option (Event * PriorityQueue) :=
  match items q with
  | [] => None
  | x :: rest =>
      let m := least x rest in
      Some (entry_event m,
            mkPriorityQueue (without (entry_seq m) (items q)) (next_seq q))
  end.

(** * Vocabulary of the properties *)

(** The spec's wording of the rounding rule, to be compared with
    [round_div]: [t] is an integer nearest to the quotient [n / d] (at most
    one half away), and when the quotient lies exactly half-way between two
    integers, [t] is the even one. *)
Definition nearest_ties_even (n d t : Z) : Prop :=
  Z.abs (2 * n - 2 * t * d) <= Z.abs d /\
  (Z.abs (2 * n - 2 * t * d) = Z.abs d -> Z.even t = true).

(** The invariant of the data model: a destination is set exactly when the
    driver is not idle. *)
Definition driver_inv (d : Driver) : Prop :=
  destination d <> None <-> is_idle d = false.

(** The claim of C7 as the spec words it: ending a drive or a ride with no
    destination set raises. *)
Definition end_without_destination_raises : Prop :=
  forall self : Driver,
    destination self = None ->
    (exists e, end_drive self = Raise e) /\ (exists e, end_ride self = Raise e).

(** A queue as the operations build it: no two entries carry the same
    sequence number and every number is below the next one to be given. *)
Definition queue_wf (q : PriorityQueue) : Prop :=
  NoDup (map entry_seq (items q)) /\
  (forall x, In x (items q) -> (entry_seq x < next_seq q)%nat).


(** The travel time of driver [d] to [target] is computed: the call returns
    a number instead of raising. *)
Definition reaches (d : Driver) (target : Location) : Prop :=
  exists t, get_travel_time d target = Ok t.

(** A driver with a location and a non-zero speed (the data model asks for a
    positive one): what a computed travel time requires. *)
Definition ready (d : Driver) : Prop :=
  location d <> None /\ speed d <> 0.

(** What the loop of [request_driver] has found after a list [reg], when it
    entered with a candidate [e] of time [t]: either it kept the candidate
    ([p = None]) or it moved to the driver at index [i] of [reg]
    ([p = Some i]), idle and strictly faster than the candidate; in both cases
    no idle driver of [reg] is faster than the one kept, and those before
    index [i] are strictly slower. *)
Definition scan_post (w : World) (target : Location) (reg : list ref)
    (e : ref) (t : Z) (p : option nat) (e2 : ref) (t2 : Z) : Prop :=
  match p with
  | None => e2 = e /\ t2 = t
  | Some i =>
      nth_error reg i = Some e2 /\ is_idle (drivers w e2) = true /\
      get_travel_time (drivers w e2) target = Ok t2 /\ t2 < t
  end /\
  forall j e', nth_error reg j = Some e' -> is_idle (drivers w e') = true ->
    exists t', get_travel_time (drivers w e') target = Ok t' /\ t2 <= t' /\
               match p with
               | None => True
               | Some i => (j < i)%nat -> t2 < t'
               end.

(** Two driver records that [Driver.__eq__] calls equal. *)
Definition same_record (a b : Driver) : Prop :=
  d_id a = d_id b /\ location a = location b /\
  destination a = destination b /\ speed a = speed b.

(** Every comparison that the membership test of [request_rider] may perform
    for [d] against the list [reg] is defined. *)
Definition comparable (w : World) (d : ref) (reg : list ref) : Prop :=
  forall e, In e reg -> e <> d ->
            exists b, Driver_eq (drivers w e) (drivers w d) = Ok b.

Definition is_Cancellation (e : Event) : bool :=
  match e with Cancellation _ _ => true | _ => false end.

Definition is_Pickup (e : Event) : bool :=
  match e with Pickup _ _ _ => true | _ => false end.

(** The transitions the data model allows: none, or from Waiting to one of
    the two terminal states. *)
Definition status_mono (a b : Status) : Prop :=
  a = b \/ (a = WAITING /\ (b = CANCELLED \/ b = SATISFIED)).

(** [reach w w']: some sequence of events, executed one after the other from
    [w], none of them raising, ends in [w']. *)
Inductive reach : World -> World -> Prop :=
| reach_refl (w : World) : reach w w
| reach_step (w w1 w2 : World) (e : Event) (evs : list Event) :
    do e w = Ok (evs, w1) -> reach w1 w2 -> reach w w2.

(** The state in which [Cancellation.do] leaves a rider that is not
    Satisfied. *)
Definition cancelled (t : Z) (r : ref) (w : World) : World :=
  let w1 := cancel_ride r w in
  let w2 := set_rider w1 r (set_status (riders w1 r) CANCELLED) in
  notify w2 (mkNotification t RIDER CANCEL (r_id (riders w2 r))
               (Some (origin (riders w2 r)))).

(** * Sample stores and states *)

Definition amy : Driver := Driver_init "amy" (mkLocation 0 0) 1.
Definition bea : Driver := Driver_init "bea" (mkLocation 0 6) 1.
Definition cal : Driver := Driver_init "cal" (mkLocation 3 3) 1.

(** A second record carrying amy's identifier, at another place. *)
Definition amy_twin : Driver := Driver_init "amy" (mkLocation 3 4) 1.

Definition ann : Rider :=
  Rider_init "ann" (mkLocation 0 3) (mkLocation 0 10) 20.
Definition bob : Rider :=
  Rider_init "bob" (mkLocation 1 1) (mkLocation 5 5) 7.

Definition sample_drivers (r : ref) : Driver :=
  match r with
  | O => amy
  | S O => bea
  | S (S O) => cal
  | _ => amy_twin
  end.

Definition sample_riders (r : ref) : Rider :=
  match r with
  | O => ann
  | _ => bob
  end.

(** A dispatcher that knows the three drivers, all idle, and has nobody
    waiting. *)
Definition three_idle : World :=
  mkWorld sample_drivers sample_riders [] [0; 1; 2]%nat [].

(** bea is registered and busy on a drive; nobody is waiting. *)
Definition bea_busy : World :=
  mkWorld (upd sample_drivers 1%nat
             (mkDriver "bea" (Some (mkLocation 0 6)) 1 false
                       (Some (mkLocation 0 9))))
          sample_riders [] [1%nat] [].

(** ann waits with bob next in line; amy, bea and cal are registered but are
    looked at by no Cancellation. *)
Definition two_waiting : World :=
  mkWorld sample_drivers sample_riders [0; 1]%nat [0; 1; 2]%nat [].

(** ann has given up: [three_idle] after the Cancellation for ann at time
    20. *)
Definition ann_cancelled : World :=
  notify (set_rider three_idle 0%nat (set_status ann CANCELLED))
         (mkNotification 20 RIDER CANCEL "ann" (Some (mkLocation 0 3))).

(** * Vocabulary of the further properties *)

(** Exactly one of two attributes that hold a Location or None is None: the
    case in which [==] on them raises. *)
Definition one_missing (a b : option Location) : Prop :=
  (a = None /\ b <> None) \/ (a <> None /\ b = None).

(** The work an event still stands for in a run: a rider request may put a
    rider on the waiting list or start a pickup, a pickup may start a ride or
    send the driver back, a dropoff sends the driver back, and a driver
    request or a cancellation is followed by nothing of its own. *)
Definition weight (e : Event) : Z :=
  match e with
  | RiderRequest _ _ => 5
  | Pickup _ _ _ => 3
  | Dropoff _ _ _ => 2
  | DriverRequest _ _ => 1
  | Cancellation _ _ => 1
  end.

(** The work pending in a run: the events still to be executed and the riders
    on the waiting list, each of whom a later driver request turns into a
    pickup. *)
Definition pending (evs : list Event) (w : World) : Z :=
  fold_right (fun e acc => weight e + acc) 0 evs
  + 3 * Z.of_nat (List.length (waiting_list w)).

From Stdlib Require Import Permutation.

(** One turn of the loop of [Simulation.run]: an event is taken out of the
    queue, executed, and the events it returns are put into the queue.  The
    queue class is not among the sources; it is taken here as any discipline
    that hands out one of the queued events and keeps all the others, in
    whatever order. *)
Inductive turn : list Event * World -> list Event * World -> Prop :=
| turn_do (q q' before after evs : list Event) (e : Event) (w w' : World) :
    q = before ++ e :: after ->
    do e w = Ok (evs, w') ->
    Permutation q' (before ++ evs ++ after) ->
    turn (q, w) (q', w').

(** [turns k a b]: [k] turns of the loop lead from [a] to [b]. *)
Inductive turns : nat -> list Event * World -> list Event * World -> Prop :=
| turns_none (a : list Event * World) : turns 0 a a
| turns_more (k : nat) (a b c : list Event * World) :
    turn a b -> turns k b c -> turns (S k) a c.

(** The number of notifications an event sends to the monitor. *)
Definition notifications (e : Event) (w : World) : nat :=
  match e with
  | RiderRequest _ _ | DriverRequest _ _ | Dropoff _ _ _ => 1
  | Cancellation _ r =>
      if Status_eqb (status (riders w r)) SATISFIED then 0 else 1
  | Pickup _ r _ =>
      if Status_eqb (status (riders w r)) WAITING then 2 else 0
  end.

(** A world given by its five components. *)
Definition world_is (w : World) (ds : ref -> Driver) (rs : ref -> Rider)
    (wl reg : list ref) (mon : list Notification) : Prop :=
  drivers w = ds /\ riders w = rs /\ waiting_list w = wl /\
  driver_registry w = reg /\ monitor w = mon.

(** The driver [d] once it has set out for [target]. *)
Definition heading (d : Driver) (target : Location) : Driver :=
  mkDriver (d_id d) (location d) (speed d) false (Some target).

(** The driver [d] once it has arrived where it was headed. *)
Definition arrived (d : Driver) : Driver :=
  mkDriver (d_id d) (destination d) (speed d) true None.

(** * Properties *)

(** ** Rounding and travel time *)

Lemma round_half_even_div_nearest (n d : Z) :
  d <> 0 -> nearest_ties_even n d (round_half_even_div n d).
Proof.
  intros Hd. unfold nearest_ties_even, round_half_even_div.
  pose proof (Z.div_mod n d Hd) as Hdm.
  assert (Hr : (0 <= n mod d < d) \/ (d < n mod d <= 0)).
  { destruct (Z_lt_ge_dec 0 d) as [Hp | Hn].
    - left. apply Z.mod_pos_bound. lia.
    - right. apply Z.mod_neg_bound. lia. }
  set (q := n / d) in *. set (r := n mod d) in *.
  assert (Hn : 2 * n = 2 * (d * q) + 2 * r) by lia.
  destruct (Z.compare_spec (Z.abs (2 * r)) (Z.abs d)) as [He | Hl | Hg].
  - destruct (Z.even q) eqn:Hev.
    + split; [ | intros _; exact Hev ].
      replace (2 * n - 2 * q * d) with (2 * r) by lia. lia.
    + assert (Hodd : Z.even (q + 1) = true).
      { rewrite Z.even_add, Hev. reflexivity. }
      split; [ | intros _; exact Hodd ].
      replace (2 * n - 2 * (q + 1) * d) with (2 * r - 2 * d) by lia. lia.
  - replace (2 * n - 2 * q * d) with (2 * r) by lia. split; lia.
  - replace (2 * n - 2 * (q + 1) * d) with (2 * r - 2 * d) by lia. split; lia.
Qed.

Lemma nearest_ties_even_unique (n d t t' : Z) :
  d <> 0 ->
  nearest_ties_even n d t -> nearest_ties_even n d t' -> t = t'.
Proof.
  intros Hd [H1 E1] [H2 E2].
  assert (Hclose : t' = t \/ t' = t + 1 \/ t' = t - 1) by nia.
  destruct Hclose as [-> | [-> | ->]]; [ reflexivity | | ]; exfalso.
  - assert (A1 : Z.abs (2 * n - 2 * t * d) = Z.abs d) by nia.
    assert (A2 : Z.abs (2 * n - 2 * (t + 1) * d) = Z.abs d) by nia.
    specialize (E1 A1). specialize (E2 A2).
    rewrite Z.even_add, E1 in E2. discriminate.
  - assert (A1 : Z.abs (2 * n - 2 * t * d) = Z.abs d) by nia.
    assert (A2 : Z.abs (2 * n - 2 * (t - 1) * d) = Z.abs d) by nia.
    specialize (E1 A1). specialize (E2 A2).
    rewrite Z.even_sub, E1 in E2. discriminate.
Qed.

(** Rounding twice, first to a grid of step 1/P finer than 1/b and then to
    the integers, is rounding once. *)
Lemma round_twice (a b P' : Z) :
  0 <= a -> 0 < b -> 0 < P' -> b < 2 * P' ->
  round_half_even_div (round_half_even_div (a * (2 * P')) b) (2 * P')
  = round_half_even_div a b.
Proof.
  intros Ha Hb HP Hlt.
  set (P := 2 * P') in *.
  set (m := round_half_even_div (a * P) b).
  set (r := round_half_even_div m P).
  destruct (round_half_even_div_nearest (a * P) b) as [H1 _]; [ lia | ].
  destruct (round_half_even_div_nearest m P) as [H2 E2]; [ lia | ].
  fold m in H1. fold r in H2, E2.
  rewrite (Z.abs_eq b) in H1 by lia. rewrite (Z.abs_eq P) in H2, E2 by lia.
  apply Z.abs_le in H1. apply Z.abs_le in H2.
  set (u := 2 * (a * P) - 2 * m * b) in *.
  set (v := 2 * m - 2 * r * P) in *.
  set (D := 2 * a - 2 * r * b).
  assert (HPD : P * D = u + b * v) by (unfold D, u, v; ring).
  apply (nearest_ties_even_unique a b); [ lia | | apply round_half_even_div_nearest; lia ].
  unfold nearest_ties_even. fold D. rewrite (Z.abs_eq b) by lia.
  assert (Hbv : - (b * P) <= b * v <= b * P).
  { split.
    - assert (b * (- P) <= b * v) by (apply Z.mul_le_mono_nonneg_l; lia). lia.
    - apply Z.mul_le_mono_nonneg_l; lia. }
  assert (HD : - b <= D <= b).
  { split.
    - destruct (Z_lt_le_dec D (- b)) as [Hc | Hc]; [ exfalso | exact Hc ].
      assert (P * D <= P * (- b - 1)) by (apply Z.mul_le_mono_nonneg_l; lia).
      lia.
    - destruct (Z_lt_le_dec b D) as [Hc | Hc]; [ exfalso | exact Hc ].
      assert (P * (b + 1) <= P * D) by (apply Z.mul_le_mono_nonneg_l; lia).
      lia. }
  split; [ apply Z.abs_le; exact HD | ].
  intros Htie. apply E2.
  set (k := m - r * P).
  assert (Hv : v = 2 * k) by (unfold v, k; ring).
  assert (HPe : P = 2 * P') by reflexivity.
  assert (Hcases : D = b \/ D = - b) by lia.
  destruct Hcases as [Hcase | Hcase].
  - assert (Hge : b * (P - 1) <= b * v) by lia.
    assert (P - 1 <= v).
    { destruct (Z_lt_le_dec v (P - 1)) as [Hc | Hc]; [ exfalso | exact Hc ].
      assert (b * v <= b * (P - 2)) by (apply Z.mul_le_mono_nonneg_l; lia).
      lia. }
    assert (v = P) by lia. lia.
  - assert (Hle : b * v <= b * (1 - P)) by lia.
    assert (v <= 1 - P).
    { destruct (Z_lt_le_dec (1 - P) v) as [Hc | Hc]; [ exfalso | exact Hc ].
      assert (b * (2 - P) <= b * v) by (apply Z.mul_le_mono_nonneg_l; lia).
      lia. }
    assert (v = - P) by lia. lia.
Qed.

Lemma round_half_even_div_bounds (n d : Z) :
  0 <= n -> 0 < d ->
  0 <= round_half_even_div n d <= n.
Proof.
  intros Hn Hd.
  destruct (round_half_even_div_nearest n d) as [H _]; [ lia | ].
  set (t := round_half_even_div n d) in *.
  assert (Habs : Z.abs d = d) by lia. rewrite Habs in H.
  apply Z.abs_le in H. split.
  - destruct (Z_lt_le_dec t 0) as [Hneg | Hpos]; [ exfalso | exact Hpos ].
    assert (t * d <= (-1) * d) by (apply Z.mul_le_mono_nonneg_r; lia). lia.
  - destruct (Z_lt_le_dec n t) as [Hgt | Hle]; [ exfalso | exact Hle ].
    assert ((n + 1) * d <= t * d) by (apply Z.mul_le_mono_nonneg_r; lia).
    assert (n * 1 <= n * d) by (apply Z.mul_le_mono_nonneg_l; lia). lia.
Qed.

Lemma round_half_even_div_small (a b : Z) :
  0 <= a -> 2 * a < b -> round_half_even_div a b = 0.
Proof.
  intros Ha Hb.
  apply (nearest_ties_even_unique a b); [ lia | apply round_half_even_div_nearest; lia | ].
  split; [ lia | intros H; exfalso; lia ].
Qed.

(** Below the precision of the grid both roundings give zero. *)
Lemma round_twice_small (a b P : Z) :
  0 <= a -> 0 < P -> P <= b -> 2 * a < P ->
  round_half_even_div (round_half_even_div (a * P) b) P
  = round_half_even_div a b.
Proof.
  intros Ha HP Hb Hs.
  rewrite (round_half_even_div_small a b) by lia.
  apply round_half_even_div_small.
  - apply round_half_even_div_bounds; [ apply Z.mul_nonneg_nonneg; lia | lia ].
  - destruct (round_half_even_div_nearest (a * P) b) as [H _]; [ lia | ].
    set (m := round_half_even_div (a * P) b) in *.
    rewrite (Z.abs_eq b) in H by lia. apply Z.abs_le in H.
    assert (a * P <= a * b) by (apply Z.mul_le_mono_nonneg_l; lia).
    destruct (Z_lt_le_dec a m) as [Hc | Hc]; [ exfalso | lia ].
    assert ((a + 1) * b <= m * b) by (apply Z.mul_le_mono_nonneg_r; lia).
    lia.
Qed.

Lemma ulp_exponent_small (a b : Z) :
  0 < a < 2 ^ 52 -> 0 < b ->
  ulp_exponent a b < 0 /\
  (b < 2 ^ (- ulp_exponent a b) \/ ulp_exponent a b = -1074).
Proof.
  intros [Ha Hlt] Hb. unfold ulp_exponent.
  assert (Hla : Z.log2 a < 52) by (apply Z.log2_lt_pow2; lia).
  pose proof (Z.log2_nonneg b) as Hlb.
  set (e1 := Z.log2 a - Z.log2 b - 53).
  set (e2 := if 2 ^ 53 * (b * 2 ^ Z.max 0 e1) <=? a * 2 ^ Z.max 0 (- e1)
             then e1 + 1 else e1).
  assert (He2 : e1 <= e2 <= e1 + 1)
    by (unfold e2; destruct (_ <=? _); lia).
  split; [ lia | ].
  destruct (Z_lt_le_dec e2 (-1074)) as [Hc | Hc]; [ right; lia | left ].
  rewrite Z.max_l by lia.
  destruct (Z.log2_spec b Hb) as [_ Hup].
  apply (Z.lt_le_trans _ _ _ Hup).
  apply Z.pow_le_mono_r; lia.
Qed.

Lemma round_div_exact (n d : Z) :
  0 <= n < 2 ^ 52 -> 0 < d ->
  round_div n d = Ok (round_half_even_div n d).
Proof.
  intros [Hn Hlt] Hd. unfold round_div, bind, true_divide.
  destruct (Z.eqb_spec d 0) as [E | _]; [ lia | ].
  destruct (Z.eqb_spec n 0) as [-> | Hn0].
  - cbn [round_float]. rewrite (round_half_even_div_small 0 d) by lia.
    reflexivity.
  - rewrite (Z.abs_eq n), (Z.abs_eq d) by lia.
    destruct (ulp_exponent_small n d) as [He Hcase]; [ lia | lia | ].
    set (e := ulp_exponent n d) in *.
    rewrite (Z.max_l 0 e), (Z.max_r 0 (- e)) by lia.
    assert (Hneg : (0 <=? e) = false) by (apply Z.leb_gt; exact He).
    rewrite Hneg. cbn [andb round_float]. rewrite Hneg.
    rewrite (Z.sgn_pos n), (Z.sgn_pos d) by lia.
    rewrite Z.pow_0_r, !Z.mul_1_l, Z.mul_1_r. f_equal.
    destruct (Z_lt_le_dec d (2 ^ (- e))) as [Hsmall | Hbig].
    + replace (2 ^ (- e)) with (2 * 2 ^ (- e - 1)) in *
        by (rewrite <- Z.pow_succ_r by lia; f_equal; lia).
      apply round_twice; [ lia | lia | apply Z.pow_pos_nonneg; lia | lia ].
    + destruct Hcase as [Hc | Hc]; [ lia | ].
      apply round_twice_small;
        [ lia | apply Z.pow_pos_nonneg; lia | exact Hbig | ].
      rewrite Hc. apply (Z.lt_le_trans _ (2 ^ 53)).
      * replace (2 ^ 53) with (2 * 2 ^ 52) by reflexivity. lia.
      * apply Z.pow_le_mono_r; lia.
Qed.

Lemma round_div_nonneg (n d t : Z) :
  0 <= n -> 0 < d -> round_div n d = Ok t -> 0 <= t.
Proof.
  intros Hn Hd. unfold round_div, bind, true_divide.
  destruct (Z.eqb_spec d 0) as [E | _]; [ lia | ].
  destruct (Z.eqb_spec n 0) as [-> | Hn0].
  - cbn [round_float]. intros H. injection H as <-. simpl. lia.
  - rewrite (Z.abs_eq n), (Z.abs_eq d) by lia.
    set (e := ulp_exponent n d).
    set (m := round_half_even_div (n * 2 ^ Z.max 0 (- e)) (d * 2 ^ Z.max 0 e)).
    assert (Hm : 0 <= m).
    { apply round_half_even_div_bounds.
      - apply Z.mul_nonneg_nonneg; [ lia | apply Z.pow_nonneg; lia ].
      - apply Z.mul_pos_pos; [ lia | apply Z.pow_pos_nonneg; lia ]. }
    destruct ((0 <=? e) && (2 ^ 1024 <=? m * 2 ^ e)); [ discriminate | ].
    rewrite (Z.sgn_pos n), (Z.sgn_pos d) by lia. rewrite !Z.mul_1_l.
    cbn [round_float]. intros H. injection H as <-.
    destruct (Z.leb_spec 0 e) as [He | He].
    + apply Z.mul_nonneg_nonneg; [ exact Hm | apply Z.pow_nonneg; lia ].
    + apply round_half_even_div_bounds; [ exact Hm | ].
      apply Z.pow_pos_nonneg; lia.
Qed.

Lemma round_div_zero (d : Z) : d <> 0 -> round_div 0 d = Ok 0.
Proof.
  intros Hd. unfold round_div, bind, true_divide.
  destruct (Z.eqb_spec d 0) as [E | _]; [ contradiction | ]. reflexivity.
Qed.

Lemma round_div_ok_nonzero (n d t : Z) : round_div n d = Ok t -> d <> 0.
Proof.
  unfold round_div, bind, true_divide.
  destruct (Z.eqb_spec d 0) as [E | H]; [ discriminate | intros _; exact H ].
Qed.

(** Where the double is exact: below [2 ^ 52] the double nearest to the
    quotient rounds to the same integer as the quotient itself. *)
Lemma get_travel_time_exact (self : Driver) (loc target : Location) :
  location self = Some loc ->
  0 < speed self ->
  manhattan_distance loc target < 2 ^ 52 ->
  get_travel_time self target
  = Ok (round_half_even_div (manhattan_distance loc target) (speed self)).
Proof.
  intros Hloc Hsp Hlt. unfold get_travel_time. rewrite Hloc.
  apply round_div_exact; [ | exact Hsp ].
  split; [ unfold manhattan_distance; lia | exact Hlt ].
Qed.




(** Half-way quotients go to the even neighbour, not upwards; a speed of
    zero and a quotient beyond the doubles raise; a large distance is
    rounded as a double is. *)
Example travel_time_half_even :
  get_travel_time (Driver_init "amy" (mkLocation 0 0) 2) (mkLocation 0 1) = Ok 0
  /\ get_travel_time (Driver_init "amy" (mkLocation 0 0) 2) (mkLocation 0 3) = Ok 2
  /\ get_travel_time (Driver_init "amy" (mkLocation 0 0) 2) (mkLocation 2 3) = Ok 2
  /\ get_travel_time (Driver_init "amy" (mkLocation 0 0) 0) (mkLocation 2 3)
     = Raise ZeroDivisionError
  /\ get_travel_time (Driver_init "amy" (mkLocation 0 0) 1)
                     (mkLocation 0 (10 ^ 400))
     = Raise OverflowError
  /\ get_travel_time (Driver_init "amy" (mkLocation 0 0) 1)
                     (mkLocation 0 (2 ^ 53 + 3))
     = Ok (2 ^ 53 + 4).
Proof. repeat split; vm_compute; reflexivity. Qed.

(** ** Driver life cycle *)

Lemma start_drive_eq (d : Driver) (target : Location) :
  start_drive d target
  = (t <- get_travel_time d target ;; Ok (t, heading d target)).
Proof. reflexivity. Qed.

Lemma start_ride_eq (d : Driver) (rider : Rider) :
  start_ride d rider
  = (t <- get_travel_time d (r_destination rider) ;;
     Ok (t, heading d (r_destination rider))).
Proof. reflexivity. Qed.



(** C7, as stated, fails: a freshly built driver has no destination, and both
    [end_drive] and [end_ride] return normally on it, leaving it idle at no
    location. *)
Lemma C7_counterexample :
  destination (Driver_init "amy" (mkLocation 0 0) 1) = None /\
  end_drive (Driver_init "amy" (mkLocation 0 0) 1)
    = Ok (mkDriver "amy" None 1 true None) /\
  end_ride (Driver_init "amy" (mkLocation 0 0) 1)
    = Ok (mkDriver "amy" None 1 true None) /\
  ~ end_without_destination_raises.
Proof.
  repeat split.
  intros H.
  destruct (H (Driver_init "amy" (mkLocation 0 0) 1) eq_refl) as [[e He] _].
  discriminate He.
Qed.

(** C7 (amended): [end_drive] and [end_ride] do not check their precondition.
    With no destination set they return normally: the driver becomes idle,
    keeps no destination and loses its location; identifier and speed are
    kept.  Nothing is raised by the call; what raises, with AttributeError,
    is any later computation of a travel time for that driver. *)
Theorem C7_end_without_destination (self : Driver) :
  destination self = None ->
  end_drive self = Ok (mkDriver (d_id self) None (speed self) true None) /\
  end_ride self = Ok (mkDriver (d_id self) None (speed self) true None) /\
  (forall target,
      get_travel_time (mkDriver (d_id self) None (speed self) true None) target
      = Raise AttributeError).
Proof.
  intros Hd. unfold end_drive, end_ride. simpl. rewrite Hd.
  repeat split.
Qed.

Lemma C7_end_without_destination_witness :
  end_drive (Driver_init "amy" (mkLocation 0 0) 1)
    = Ok (mkDriver "amy" None 1 true None) /\
  end_ride (Driver_init "amy" (mkLocation 0 0) 1)
    = Ok (mkDriver "amy" None 1 true None) /\
  (forall target,
      get_travel_time (mkDriver "amy" None 1 true None) target
      = Raise AttributeError).
Proof.
  apply (C7_end_without_destination (Driver_init "amy" (mkLocation 0 0) 1)).
  reflexivity.
Defined.

(** ** Ordering of events *)

(** A rider request and a driver request at the same time are distinct
    events, neither is less than the other, and [==] calls them equal: the
    comparison of Event has no tie-break of its own. *)
Example equal_timestamps_compare_equal :
  RiderRequest 5 0 <> DriverRequest 5 0 /\
  Event_lt (RiderRequest 5 0) (DriverRequest 5 0) = false /\
  Event_lt (DriverRequest 5 0) (RiderRequest 5 0) = false /\
  Event_eq (RiderRequest 5 0) (DriverRequest 5 0) = true.
Proof. repeat split; discriminate. Qed.

Lemma Entry_lt_spec (x y : Entry) :
  Entry_lt x y = true <->
  timestamp (entry_event x) < timestamp (entry_event y) \/
  (timestamp (entry_event x) = timestamp (entry_event y) /\
   (entry_seq x < entry_seq y)%nat).
Proof.
  unfold Entry_lt, Event_lt, Event_eq.
  rewrite orb_true_iff, andb_true_iff, Z.ltb_lt, Z.eqb_eq, Nat.ltb_lt.
  reflexivity.
Qed.

Lemma Entry_lt_false (x y : Entry) :
  Entry_lt x y = false <->
  timestamp (entry_event y) < timestamp (entry_event x) \/
  (timestamp (entry_event x) = timestamp (entry_event y) /\
   (entry_seq y <= entry_seq x)%nat).
Proof.
  rewrite <- not_true_iff_false, Entry_lt_spec. lia.
Qed.

Lemma seq_injective (l : list Entry) (x y : Entry) :
  NoDup (map entry_seq l) -> In x l -> In y l ->
  entry_seq x = entry_seq y -> x = y.
Proof.
  induction l as [ | z l IH]; simpl; intros Hnd Hx Hy E; [ destruct Hx | ].
  apply NoDup_cons_iff in Hnd. destruct Hnd as [Hz Hnd].
  destruct Hx as [-> | Hx], Hy as [-> | Hy].
  - reflexivity.
  - exfalso. apply Hz. rewrite E. apply in_map. exact Hy.
  - exfalso. apply Hz. rewrite <- E. apply in_map. exact Hx.
  - apply IH; assumption.
Qed.

(** [least] picks an entry of the list that no entry of the list precedes. *)
Lemma least_spec (l : list Entry) :
  forall x,
    In (least x l) (x :: l) /\
    (forall o, In o (x :: l) -> Entry_lt o (least x l) = false).
Proof.
  induction l as [ | y rest IH]; intros x; cbn [least].
  - split; [ left; reflexivity | ].
    intros o [<- | []]. apply Entry_lt_false. lia.
  - destruct (Entry_lt y x) eqn:Hyx.
    + destruct (IH y) as [Hin Hmin]. split.
      * right. exact Hin.
      * intros o [<- | Ho]; [ | apply Hmin; exact Ho ].
        pose proof (Hmin y (or_introl eq_refl)) as Hy.
        apply Entry_lt_spec in Hyx. apply Entry_lt_false in Hy.
        apply Entry_lt_false. lia.
    + destruct (IH x) as [Hin Hmin]. split.
      * destruct Hin as [E | Hin]; [ left; exact E | right; right; exact Hin ].
      * intros o [<- | [<- | Ho]].
        -- apply Hmin. left. reflexivity.
        -- pose proof (Hmin x (or_introl eq_refl)) as Hx.
           apply Entry_lt_false in Hyx. apply Entry_lt_false in Hx.
           apply Entry_lt_false. lia.
        -- apply Hmin. right. exact Ho.
Qed.

Lemma without_spec (n : nat) (l : list Entry) :
  NoDup (map entry_seq l) ->
  NoDup (map entry_seq (without n l)) /\
  (forall o, In o (without n l) <-> In o l /\ entry_seq o <> n).
Proof.
  induction l as [ | y rest IH]; cbn [without map]; intros Hnd.
  - split; [ constructor | intros o; split; [ intros [] | intros [[] _] ] ].
  - apply NoDup_cons_iff in Hnd. destruct Hnd as [Hy Hnd].
    destruct (IH Hnd) as [IHn IHi].
    destruct (Nat.eqb_spec (entry_seq y) n) as [E | Hne].
    + split; [ exact Hnd | ].
      intros o. split.
      * intros Ho. split; [ right; exact Ho | ].
        intros Eo. apply Hy. rewrite E, <- Eo. apply in_map. exact Ho.
      * intros [[<- | Ho] Hn]; [ contradiction | exact Ho ].
    + split.
      * cbn [map]. constructor; [ | exact IHn ].
        intros Hin. apply in_map_iff in Hin. destruct Hin as (o & Eo & Ho).
        apply IHi in Ho. apply Hy. rewrite <- Eo. apply in_map. exact (proj1 Ho).
      * intros o. split.
        -- intros [<- | Ho]; [ split; [ left; reflexivity | exact Hne ] | ].
           apply IHi in Ho. split; [ right; exact (proj1 Ho) | exact (proj2 Ho) ].
        -- intros [[<- | Ho] Hn]; [ left; reflexivity | right ].
           apply IHi. split; assumption.
Qed.

(** C6: the order of the event queue is a fixed total order.  Two distinct
    entries of a queue are always ordered, one way and not the other; the
    order is irreflexive and transitive; an earlier timestamp comes first,
    and among equal timestamps the entry inserted first, the one with the
    smaller sequence number.  The empty queue and every insertion and
    extraction keep the sequence numbers distinct, so that the order never
    has to choose; an insertion gives the new event a number above all those
    present; an extraction returns the event of the entry that precedes
    every other one and leaves exactly the other entries. *)
Theorem C6_queue_order_is_total (q : PriorityQueue) (x y z : Entry) :
  queue_wf q ->
  In x (items q) -> In y (items q) -> x <> y ->
  (Entry_lt x y = true \/ Entry_lt y x = true) /\
  (Entry_lt x y = true -> Entry_lt y x = false) /\
  Entry_lt x x = false /\
  (Entry_lt x y = true -> Entry_lt y z = true -> Entry_lt x z = true) /\
  (timestamp (entry_event x) < timestamp (entry_event y) ->
   Entry_lt x y = true) /\
  (timestamp (entry_event x) = timestamp (entry_event y) ->
   Entry_lt x y = (entry_seq x <? entry_seq y)%nat) /\
  queue_wf PriorityQueue_init /\
  (forall e,
      queue_wf (PriorityQueue_add q e) /\
      items (PriorityQueue_add q e) = items q ++ [mkEntry e (next_seq q)] /\
      (forall o, In o (items q) -> (entry_seq o < next_seq q)%nat)) /\
  (forall e q',
      PriorityQueue_remove q = Some (e, q') ->
      queue_wf q' /\
      exists m,
        In m (items q) /\ entry_event m = e /\
        (forall o, In o (items q) -> o <> m -> Entry_lt m o = true) /\
        (forall o, In o (items q') <-> In o (items q) /\ o <> m)).
Proof.
  intros [Hnd Hbound] Hx Hy Hne.
  assert (Hseq : forall o o', In o (items q) -> In o' (items q) -> o <> o' ->
                              entry_seq o <> entry_seq o').
  { intros o o' Ho Ho' Hd E. apply Hd.
    apply (seq_injective (items q)); assumption. }
  assert (Htotal : forall o o', In o (items q) -> In o' (items q) -> o <> o' ->
                                Entry_lt o' o = false -> Entry_lt o o' = true).
  { intros o o' Ho Ho' Hd Hf. pose proof (Hseq o o' Ho Ho' Hd).
    apply Entry_lt_false in Hf. apply Entry_lt_spec. lia. }
  pose proof (Hseq x y Hx Hy Hne) as Hxy.
  split; [ | split; [ | split; [ | split; [ | split; [ | split ] ] ] ] ].
  - destruct (Entry_lt y x) eqn:E; [ right; reflexivity | left ].
    apply Htotal; assumption.
  - intros H. apply Entry_lt_spec in H. apply Entry_lt_false. lia.
  - apply Entry_lt_false. lia.
  - intros H1 H2. apply Entry_lt_spec in H1, H2. apply Entry_lt_spec. lia.
  - intros H. apply Entry_lt_spec. lia.
  - intros H. destruct (Nat.ltb_spec (entry_seq x) (entry_seq y)) as [L | L].
    + apply Entry_lt_spec. lia.
    + apply Entry_lt_false. lia.
  - split; [ split; [ constructor | intros o [] ] | split ].
    + intros e. split; [ | split; [ reflexivity | exact Hbound ] ].
      unfold PriorityQueue_add, queue_wf. cbn [items next_seq]. split.
      * rewrite map_app. cbn [map entry_seq].
        assert (Hfresh : ~ In (next_seq q) (map entry_seq (items q))).
        { intros Hin. apply in_map_iff in Hin. destruct Hin as (o & Eo & Ho).
          pose proof (Hbound o Ho). lia. }
        clear - Hnd Hfresh. revert Hnd Hfresh.
        generalize (map entry_seq (items q)) as l. generalize (next_seq q) as n.
        induction l as [ | k l IH]; intros Hnd Hfresh; simpl.
        -- constructor; [ intros [] | constructor ].
        -- apply NoDup_cons_iff in Hnd. destruct Hnd as [Hk Hnd].
           constructor.
           ++ intros Hin. apply in_app_or in Hin.
              destruct Hin as [Hin | [E | []]]; [ exact (Hk Hin) | ].
              apply Hfresh. left. symmetry. exact E.
           ++ apply IH; [ exact Hnd | ].
              intros Hin. apply Hfresh. right. exact Hin.
      * intros o Ho. apply in_app_or in Ho.
        destruct Ho as [Ho | [<- | []]]; [ pose proof (Hbound o Ho); lia | ].
        cbn [entry_seq]. lia.
    + intros e q'. unfold PriorityQueue_remove.
      destruct (items q) as [ | h rest] eqn:Hitems; [ discriminate | ].
      intros H. injection H as <- <-.
      destruct (least_spec rest h) as [Hin Hmin].
      destruct (without_spec (entry_seq (least h rest)) (h :: rest) Hnd)
        as [Hwn Hwi].
      assert (Hmem : forall o, In o (without (entry_seq (least h rest))
                                             (h :: rest))
                               <-> In o (h :: rest) /\ o <> least h rest).
      { intros o. rewrite Hwi. split; intros [Ho Hd]; (split; [ exact Ho | ]).
        - intros ->. apply Hd. reflexivity.
        - intros E. apply Hd.
          apply (seq_injective (h :: rest)); assumption. }
      split.
      * split; [ exact Hwn | ].
        cbn [items next_seq]. intros o Ho. apply Hmem in Ho.
        apply Hbound. exact (proj1 Ho).
      * exists (least h rest).
        split; [ exact Hin | split; [ reflexivity | split ] ].
        -- intros o Ho Hd. apply Htotal; try assumption.
           ++ intros E. apply Hd. symmetry. exact E.
           ++ apply Hmin. exact Ho.
        -- exact Hmem.
Qed.

(** A queue that was given a pickup at time 7, then a rider request and a
    driver request both at time 5. *)
Lemma C6_queue_order_is_total_witness :
  (Entry_lt (mkEntry (RiderRequest 5 0) 1) (mkEntry (DriverRequest 5 0) 2)
   = true \/
   Entry_lt (mkEntry (DriverRequest 5 0) 2) (mkEntry (RiderRequest 5 0) 1)
   = true) /\
  (Entry_lt (mkEntry (RiderRequest 5 0) 1) (mkEntry (DriverRequest 5 0) 2)
   = true ->
   Entry_lt (mkEntry (DriverRequest 5 0) 2) (mkEntry (RiderRequest 5 0) 1)
   = false).
Proof.
  destruct (C6_queue_order_is_total
              (PriorityQueue_add
                 (PriorityQueue_add
                    (PriorityQueue_add PriorityQueue_init (Pickup 7 0 0))
                    (RiderRequest 5 0))
                 (DriverRequest 5 0))
              (mkEntry (RiderRequest 5 0) 1) (mkEntry (DriverRequest 5 0) 2)
              (mkEntry (Pickup 7 0 0) 0))
    as (H1 & H2 & _).
  - split.
    + simpl. repeat constructor; simpl; intuition lia.
    + simpl. intros o [<- | [<- | [<- | []]]]; simpl; lia.
  - simpl. right. left. reflexivity.
  - simpl. right. right. left. reflexivity.
  - discriminate.
  - split; [ exact H1 | exact H2 ].
Defined.

(** The rider request, inserted before the driver request of the same time,
    leaves the queue first; the pickup at time 7 leaves last; then the queue
    is empty and an extraction fails. *)
Example queue_is_first_in_first_out :
  let q := PriorityQueue_add
             (PriorityQueue_add
                (PriorityQueue_add PriorityQueue_init (Pickup 7 0 0))
                (RiderRequest 5 0))
             (DriverRequest 5 0) in
  exists q1 q2 q3,
    PriorityQueue_remove q = Some (RiderRequest 5 0, q1) /\
    PriorityQueue_remove q1 = Some (DriverRequest 5 0, q2) /\
    PriorityQueue_remove q2 = Some (Pickup 7 0 0, q3) /\
    PriorityQueue_is_empty q3 = true /\
    PriorityQueue_remove q3 = None.
Proof. do 3 eexists. repeat split; reflexivity. Qed.

(** ** Dispatcher: choosing a driver *)

(** A driver at less than [2 ^ 52] units from the target and with a positive
    speed reaches it. *)
Lemma reaches_near (d : Driver) (loc target : Location) :
  location d = Some loc -> 0 < speed d ->
  manhattan_distance loc target < 2 ^ 52 ->
  reaches d target.
Proof.
  intros Hl Hs Hd. eexists.
  apply (get_travel_time_exact d loc target Hl Hs Hd).
Qed.

Section Scan.

Variable w : World.
Variable target : Location.

Let idle (e : ref) : Prop := is_idle (drivers w e) = true.
Let time (e : ref) : result Z := get_travel_time (drivers w e) target.

Lemma scan_registry_candidate (reg : list ref) :
  (forall e, In e reg -> idle e -> reaches (drivers w e) target) ->
  forall e t, exists p e2 t2,
    scan_registry w target reg (Some e) t = Ok (Some e2, t2) /\
    scan_post w target reg e t p e2 t2.
Proof.
  induction reg as [ | e0 rest IH]; intros Hready e t.
  - exists None, e, t. split; [ reflexivity | ].
    split; [ split; reflexivity | ].
    intros [ | j] e' Hj; discriminate Hj.
  - assert (Hrest : forall x, In x rest -> idle x ->
                              reaches (drivers w x) target).
    { intros x Hx. apply Hready. right. exact Hx. }
    specialize (IH Hrest). simpl.
    destruct (is_idle (drivers w e0)) eqn:Hidle.
    + destruct (Hready e0 (or_introl eq_refl) Hidle) as [t0 Ht0].
      rewrite Ht0. simpl.
      destruct (Z.ltb_spec t0 t) as [Hlt | Hge].
      * destruct (IH e0 t0) as (p & e2 & t2 & Hscan & Hp & Hall).
        destruct p as [i | ].
        -- destruct Hp as (Hn & Hi & Hti & Hlt2).
           exists (Some (S i)), e2, t2. split; [ exact Hscan | ].
           split; [ repeat split; try assumption; lia | ].
           intros [ | j] e' Hj He'.
           ++ injection Hj as <-. exists t0. repeat split; try assumption; lia.
           ++ destruct (Hall j e' Hj He') as (t' & A & B & C).
              exists t'. repeat split; try assumption. intros; apply C; lia.
        -- destruct Hp as [-> ->].
           exists (Some 0%nat), e0, t0. split; [ exact Hscan | ].
           split; [ repeat split; assumption | ].
           intros [ | j] e' Hj He'.
           ++ injection Hj as <-. exists t0. repeat split; try assumption; lia.
           ++ destruct (Hall j e' Hj He') as (t' & A & B & _).
              exists t'. repeat split; try assumption. lia.
      * destruct (IH e t) as (p & e2 & t2 & Hscan & Hp & Hall).
        exists (option_map S p), e2, t2. split; [ exact Hscan | ].
        destruct p as [i | ]; simpl.
        -- destruct Hp as (Hn & Hi & Hti & Hlt2).
           split; [ repeat split; assumption | ].
           intros [ | j] e' Hj He'.
           ++ injection Hj as <-. exists t0. repeat split; try assumption; lia.
           ++ destruct (Hall j e' Hj He') as (t' & A & B & C).
              exists t'. repeat split; try assumption. intros; apply C; lia.
        -- destruct Hp as [-> ->].
           split; [ split; reflexivity | ].
           intros [ | j] e' Hj He'.
           ++ injection Hj as <-. exists t0. repeat split; try assumption.
           ++ destruct (Hall j e' Hj He') as (t' & A & B & _).
              exists t'. repeat split; assumption.
    + destruct (IH e t) as (p & e2 & t2 & Hscan & Hp & Hall).
      exists (option_map S p), e2, t2. split; [ exact Hscan | ].
      destruct p as [i | ]; simpl.
      * destruct Hp as (Hn & Hi & Hti & Hlt2).
        split; [ repeat split; assumption | ].
        intros [ | j] e' Hj He'.
        -- injection Hj as <-. unfold idle in He'. congruence.
        -- destruct (Hall j e' Hj He') as (t' & A & B & C).
           exists t'. repeat split; try assumption. intros; apply C; lia.
      * destruct Hp as [-> ->].
        split; [ split; reflexivity | ].
        intros [ | j] e' Hj He'.
        -- injection Hj as <-. unfold idle in He'. congruence.
        -- destruct (Hall j e' Hj He') as (t' & A & B & _).
           exists t'. repeat split; assumption.
Qed.

(** The whole loop, entered with no candidate: it ends with none when no
    listed driver is idle, and otherwise with the first of the fastest idle
    drivers. *)
Lemma scan_registry_start (reg : list ref) (ft : Z) :
  (forall e, In e reg -> idle e -> reaches (drivers w e) target) ->
  ((forall e, In e reg -> is_idle (drivers w e) = false) /\
   scan_registry w target reg None ft = Ok (None, ft))
  \/
  (exists i e t,
      scan_registry w target reg None ft = Ok (Some e, t) /\
      nth_error reg i = Some e /\ idle e /\ time e = Ok t /\
      forall j e', nth_error reg j = Some e' -> idle e' ->
        exists t', time e' = Ok t' /\ t <= t' /\ ((j < i)%nat -> t < t')).
Proof.
  induction reg as [ | e0 rest IH]; intros Hready.
  - left. split; [ intros e [] | reflexivity ].
  - assert (Hrest : forall x, In x rest -> idle x ->
                              reaches (drivers w x) target).
    { intros x Hx. apply Hready. right. exact Hx. }
    simpl. destruct (is_idle (drivers w e0)) eqn:Hidle.
    + right.
      destruct (Hready e0 (or_introl eq_refl) Hidle) as [t0 Ht0].
      rewrite Ht0. simpl.
      destruct (scan_registry_candidate rest Hrest e0 t0)
        as (p & e2 & t2 & Hscan & Hp & Hall).
      destruct p as [i | ].
      * destruct Hp as (Hn & Hi & Hti & Hlt2).
        exists (S i), e2, t2. repeat split; try assumption.
        intros [ | j] e' Hj He'.
        -- injection Hj as <-. exists t0. repeat split; try assumption; lia.
        -- destruct (Hall j e' Hj He') as (t' & A & B & C).
           exists t'. repeat split; try assumption. intros; apply C; lia.
      * destruct Hp as [-> ->].
        exists 0%nat, e0, t0. repeat split; try assumption.
        intros [ | j] e' Hj He'.
        -- injection Hj as <-. exists t0. repeat split; try assumption; lia.
        -- destruct (Hall j e' Hj He') as (t' & A & B & _).
           exists t'. repeat split; try assumption. lia.
    + destruct (IH Hrest) as [[Hnone Hscan] | (i & e & t & Hscan & Hn & Hi & Hti & Hall)].
      * left. split; [ | exact Hscan ].
        intros e [<- | He]; [ exact Hidle | apply Hnone; exact He ].
      * right. exists (S i), e, t. repeat split; try assumption.
        intros [ | j] e' Hj He'.
        -- injection Hj as <-. unfold idle in He'. congruence.
        -- destruct (Hall j e' Hj He') as (t' & A & B & C).
           exists t'. repeat split; try assumption. intros; apply C; lia.
Qed.

End Scan.

(** The two outcomes of [request_driver] on a registry whose idle drivers
    reach the rider's origin. *)
Lemma request_driver_cases (rider : ref) (w : World) :
  (forall e, In e (driver_registry w) -> is_idle (drivers w e) = true ->
             reaches (drivers w e) (origin (riders w rider))) ->
  ((forall e, In e (driver_registry w) -> is_idle (drivers w e) = false) /\
   request_driver rider w
   = Ok (None, set_waiting_list w (waiting_list w ++ [rider])))
  \/
  (exists i e t,
     request_driver rider w = Ok (Some e, w) /\
     nth_error (driver_registry w) i = Some e /\
     is_idle (drivers w e) = true /\
     get_travel_time (drivers w e) (origin (riders w rider)) = Ok t /\
     forall j e',
       nth_error (driver_registry w) j = Some e' ->
       is_idle (drivers w e') = true ->
       exists t',
         get_travel_time (drivers w e') (origin (riders w rider)) = Ok t' /\
         t <= t' /\ ((j < i)%nat -> t < t')).
Proof.
  intros Hready.
  pose proof (scan_registry_start w (origin (riders w rider))
                (driver_registry w) 0 Hready) as Hscan.
  unfold request_driver.
  destruct (driver_registry w) as [ | e0 rest] eqn:Hreg.
  - left. split; [ intros e [] | reflexivity ].
  - cbn [List.length Nat.eqb].
    destruct Hscan as [[Hnone ->] | (i & e & t & -> & Hrest)].
    + left. split; [ exact Hnone | reflexivity ].
    + right. exists i, e, t. split; [ reflexivity | exact Hrest ].
Qed.

(** Without an idle driver in the registry nothing is computed, and the
    rider is put at the tail of the waiting list. *)
Lemma request_driver_none_idle (rider : ref) (w : World) :
  (forall e, In e (driver_registry w) -> is_idle (drivers w e) = false) ->
  request_driver rider w
  = Ok (None, set_waiting_list w (waiting_list w ++ [rider])).
Proof.
  intros Hnone.
  destruct (request_driver_cases rider w)
    as [[_ Hreq] | (i & e & t & _ & Hn & Hi & _)].
  - intros e He Hi. rewrite (Hnone e He) in Hi. discriminate Hi.
  - exact Hreq.
  - apply nth_error_In in Hn. rewrite (Hnone e Hn) in Hi. discriminate Hi.
Qed.

(** C1: when the registry is empty or holds no idle driver, [request_driver]
    returns None and a state whose waiting list is the old one with the rider
    appended at its tail, everything else being as it was.  When some
    registered driver is idle and the travel times of the idle registered
    drivers to the rider's origin are computed, it returns an idle registered
    driver whose travel time is the smallest, strictly smaller than that of
    every idle driver registered before it, and the state, waiting list
    included, is left as it was. *)
Theorem C1_request_driver (rider : ref) (w : World) :
  ((driver_registry w = [] \/
    (forall e, In e (driver_registry w) -> is_idle (drivers w e) = false)) ->
   exists w',
     request_driver rider w = Ok (None, w') /\
     waiting_list w' = waiting_list w ++ [rider] /\
     drivers w' = drivers w /\ riders w' = riders w /\
     driver_registry w' = driver_registry w /\ monitor w' = monitor w)
  /\
  ((exists e, In e (driver_registry w) /\ is_idle (drivers w e) = true) ->
   (forall e, In e (driver_registry w) -> is_idle (drivers w e) = true ->
              reaches (drivers w e) (origin (riders w rider))) ->
   exists i e t w',
     request_driver rider w = Ok (Some e, w') /\
     w' = w /\ waiting_list w' = waiting_list w /\
     nth_error (driver_registry w) i = Some e /\
     is_idle (drivers w e) = true /\
     get_travel_time (drivers w e) (origin (riders w rider)) = Ok t /\
     forall j e',
       nth_error (driver_registry w) j = Some e' ->
       is_idle (drivers w e') = true ->
       exists t',
         get_travel_time (drivers w e') (origin (riders w rider)) = Ok t' /\
         t <= t' /\ ((j < i)%nat -> t < t')).
Proof.
  split.
  - intros Hcase.
    exists (set_waiting_list w (waiting_list w ++ [rider])).
    split; [ | repeat split ].
    apply request_driver_none_idle.
    destruct Hcase as [Hnil | Hnone]; [ | exact Hnone ].
    rewrite Hnil. intros e [].
  - intros (x & Hx & Hxi) Hready.
    destruct (request_driver_cases rider w Hready)
      as [[Hnone _] | (i & e & t & Hreq & Hrest)].
    + rewrite (Hnone x Hx) in Hxi. discriminate Hxi.
    + exists i, e, t, w.
      split; [ exact Hreq | split; [ reflexivity | split; [ reflexivity | exact Hrest ] ] ].
Qed.

Lemma C1_request_driver_witness :
  (exists w',
     request_driver 0%nat bea_busy = Ok (None, w') /\
     waiting_list w' = waiting_list bea_busy ++ [0%nat] /\
     drivers w' = drivers bea_busy /\ riders w' = riders bea_busy /\
     driver_registry w' = driver_registry bea_busy /\
     monitor w' = monitor bea_busy)
  /\
  (exists i e t w',
     request_driver 0%nat three_idle = Ok (Some e, w') /\
     w' = three_idle /\ waiting_list w' = waiting_list three_idle /\
     nth_error (driver_registry three_idle) i = Some e /\
     is_idle (drivers three_idle e) = true /\
     get_travel_time (drivers three_idle e)
       (origin (riders three_idle 0%nat)) = Ok t /\
     forall j e',
       nth_error (driver_registry three_idle) j = Some e' ->
       is_idle (drivers three_idle e') = true ->
       exists t',
         get_travel_time (drivers three_idle e')
           (origin (riders three_idle 0%nat)) = Ok t' /\
         t <= t' /\ ((j < i)%nat -> t < t')).
Proof.
  split.
  - apply (proj1 (C1_request_driver 0%nat bea_busy)).
    right. intros e [<- | []]. reflexivity.
  - apply (proj2 (C1_request_driver 0%nat three_idle)).
    + exists 0%nat. split; [ left; reflexivity | reflexivity ].
    + intros e He _. simpl in He.
      destruct He as [<- | [<- | [<- | []]]]; exists 3; vm_compute; reflexivity.
Defined.

(** amy, bea and cal are all three units away from ann: the first registered
    one is chosen, and nobody is put on the waiting list. *)
Example request_driver_tie :
  request_driver 0%nat three_idle = Ok (Some 0%nat, three_idle).
Proof. reflexivity. Qed.

Example request_driver_empty_registry :
  request_driver 0%nat (Dispatcher_init sample_drivers sample_riders)
  = Ok (None, mkWorld sample_drivers sample_riders [0%nat] [] []).
Proof. reflexivity. Qed.

(** ** Dispatcher: registration and the waiting list *)

Lemma Location_eq_true (x y : Location) : Location_eq x y = true <-> x = y.
Proof.
  unfold Location_eq. destruct x as [r1 c1], y as [r2 c2]. simpl.
  destruct (Z.eqb_spec r1 r2) as [-> | Hr]; simpl.
  - destruct (Z.eqb_spec c1 c2) as [-> | Hc]; split; congruence.
  - split; congruence.
Qed.

Lemma opt_Location_eq_true (a b : option Location) :
  opt_Location_eq a b = Ok true <-> a = b.
Proof.
  destruct a as [x | ], b as [y | ]; simpl; split; intros H;
    try discriminate; try reflexivity.
  - injection H as H. apply Location_eq_true in H. congruence.
  - injection H as ->. f_equal. apply Location_eq_true. reflexivity.
Qed.

Lemma Driver_eq_true (a b : Driver) :
  Driver_eq a b = Ok true <-> same_record a b.
Proof.
  unfold Driver_eq, same_record. split.
  - destruct (String.eqb_spec (d_id a) (d_id b)) as [Hid | _]; [ | discriminate ].
    destruct (opt_Location_eq (location a) (location b)) as [[ | ] | ] eqn:Hl;
      simpl; try discriminate.
    destruct (opt_Location_eq (destination a) (destination b))
      as [[ | ] | ] eqn:Hd; simpl; try discriminate.
    intros H. injection H as H.
    apply opt_Location_eq_true in Hl, Hd. apply Z.eqb_eq in H. auto.
  - intros (Hid & Hl & Hd & Hs).
    rewrite Hid, String.eqb_refl.
    apply opt_Location_eq_true in Hl, Hd. rewrite Hl. simpl. rewrite Hd. simpl.
    rewrite Hs, Z.eqb_refl. reflexivity.
Qed.

(** [Driver.__eq__] gives the same answer, or the same error, whichever
    operand is on the left. *)
Lemma Driver_eq_sym (a b : Driver) : Driver_eq a b = Driver_eq b a.
Proof.
  unfold Driver_eq. rewrite (String.eqb_sym (d_id a) (d_id b)).
  destruct (String.eqb (d_id b) (d_id a)); [ | reflexivity ].
  assert (Hsym : forall x y, opt_Location_eq x y = opt_Location_eq y x).
  { intros [[r1 c1] | ] [[r2 c2] | ]; simpl; try reflexivity.
    unfold Location_eq; simpl.
    rewrite (Z.eqb_sym r1 r2), (Z.eqb_sym c1 c2). reflexivity. }
  rewrite (Hsym (location a)), (Hsym (destination a)).
  rewrite (Z.eqb_sym (speed a)). reflexivity.
Qed.

Lemma distinct_id_comparable (w : World) (d : ref) (reg : list ref) :
  (forall e, In e reg -> e <> d -> d_id (drivers w e) <> d_id (drivers w d)) ->
  comparable w d reg.
Proof.
  intros H e He Hne. exists false. unfold Driver_eq.
  destruct (String.eqb_spec (d_id (drivers w e)) (d_id (drivers w d))) as [E | _].
  - destruct (H e He Hne E).
  - reflexivity.
Qed.

Lemma driver_in_spec (w : World) (d : ref) (reg : list ref) :
  comparable w d reg ->
  exists known,
    driver_in w d reg = Ok known /\
    (known = true <->
     exists e, In e reg /\ (e = d \/ same_record (drivers w e) (drivers w d))).
Proof.
  induction reg as [ | e rest IH]; intros Hc.
  - exists false. split; [ reflexivity | ].
    split; [ discriminate | intros (e & [] & _) ].
  - simpl. destruct (Nat.eqb_spec e d) as [-> | Hne].
    + exists true. split; [ reflexivity | ].
      split; [ | reflexivity ]. intros _. exists d. split; [ left | left ]; reflexivity.
    + destruct (Hc e (or_introl eq_refl) Hne) as [b Hb]. rewrite Hb. simpl.
      destruct b.
      * exists true. split; [ reflexivity | ].
        split; [ | reflexivity ]. intros _. exists e.
        split; [ left; reflexivity | right; apply Driver_eq_true; exact Hb ].
      * destruct IH as (known & Hk & Hiff).
        { intros x Hx. apply Hc. right. exact Hx. }
        exists known. split; [ exact Hk | ].
        rewrite Hiff. split.
        -- intros (x & Hx & Hor). exists x. split; [ right; exact Hx | exact Hor ].
        -- intros (x & [<- | Hx] & Hor).
           ++ destruct Hor as [E | E]; [ contradiction | ].
              apply Driver_eq_true in E. congruence.
           ++ exists x. split; assumption.
Qed.

(** What [request_rider] does once the membership test has answered. *)
Lemma request_rider_known (d : ref) (w : World) (known : bool) :
  driver_in w d (driver_registry w) = Ok known ->
  request_rider d w =
  (let w1 := if negb known
             then set_driver_registry w (driver_registry w ++ [d]) else w in
   match waiting_list w with
   | [] => Ok (None, w1)
   | head :: rest => Ok (Some head, set_waiting_list w1 rest)
   end).
Proof.
  intros H. unfold request_rider. rewrite H. simpl.
  destruct known; reflexivity.
Qed.

Lemma request_driver_unmatched (rider : ref) (w w' : World) :
  request_driver rider w = Ok (None, w') ->
  w' = set_waiting_list w (waiting_list w ++ [rider]).
Proof.
  unfold request_driver.
  destruct (List.length (driver_registry w) =? 0)%nat.
  - intros H; injection H as <-; reflexivity.
  - destruct (scan_registry w (origin (riders w rider)) (driver_registry w)
                None 0) as [[[fd | ] ft] | ]; simpl; intros H;
      try discriminate H.
    injection H as <-; reflexivity.
Qed.

(** C2: the waiting list is a first-in first-out queue.  An unmatched
    [request_driver] appends its rider at the tail; [request_rider] on a
    non-empty waiting list removes and returns the head; so when riders [a]
    and then [b] both find no driver, the next driver to ask is given the
    oldest waiting rider, which is [a], with [b] next in line, when nobody
    waited before them.  Driver identifiers are taken to be unique, as the
    data model says. *)
Theorem C2_waiting_list_fifo (a b d : ref) (w0 w1 w2 : World) :
  request_driver a w0 = Ok (None, w1) ->
  request_driver b w1 = Ok (None, w2) ->
  (forall e, In e (driver_registry w2) -> e <> d ->
             d_id (drivers w2 e) <> d_id (drivers w2 d)) ->
  (forall w r w', request_driver r w = Ok (None, w') ->
                  waiting_list w' = waiting_list w ++ [r]) /\
  (forall w head rest,
      waiting_list w = head :: rest ->
      comparable w d (driver_registry w) ->
      exists w', request_rider d w = Ok (Some head, w') /\
                 waiting_list w' = rest) /\
  waiting_list w2 = waiting_list w0 ++ [a; b] /\
  exists head w3,
    request_rider d w2 = Ok (Some head, w3) /\
    head :: waiting_list w3 = waiting_list w2 /\
    (waiting_list w0 = [] -> head = a /\ waiting_list w3 = [b]).
Proof.
  intros Ha Hb Hids.
  assert (Hpop : forall w head rest,
             waiting_list w = head :: rest ->
             comparable w d (driver_registry w) ->
             exists w', request_rider d w = Ok (Some head, w') /\
                        waiting_list w' = rest).
  { intros w head rest Hw Hc.
    destruct (driver_in_spec w d (driver_registry w) Hc) as (known & Hk & _).
    rewrite (request_rider_known d w known Hk), Hw. simpl.
    eexists; split; [ reflexivity | reflexivity ]. }
  apply request_driver_unmatched in Ha, Hb. subst w1.
  assert (Hw2 : waiting_list w2 = waiting_list w0 ++ [a; b]).
  { subst w2. simpl. rewrite <- app_assoc. reflexivity. }
  split; [ | split; [ exact Hpop | split; [ exact Hw2 | ] ] ].
  - intros w r w' H. apply request_driver_unmatched in H. subst w'. reflexivity.
  - destruct (waiting_list w0) as [ | x rest] eqn:Hw0; simpl in Hw2.
    + destruct (Hpop w2 a [b] Hw2 (distinct_id_comparable _ _ _ Hids))
        as (w3 & Hr & Hl).
      exists a, w3. split; [ exact Hr | ]. rewrite Hl, Hw2.
      split; [ reflexivity | intros _; split; reflexivity ].
    + destruct (Hpop w2 x (rest ++ [a; b]) Hw2
                  (distinct_id_comparable _ _ _ Hids)) as (w3 & Hr & Hl).
      exists x, w3. split; [ exact Hr | ]. rewrite Hl, Hw2.
      split; [ reflexivity | discriminate ].
Qed.

Lemma C2_waiting_list_fifo_witness :
  waiting_list (set_waiting_list bea_busy [0; 1]%nat)
  = waiting_list bea_busy ++ [0; 1]%nat /\
  exists head w3,
    request_rider 0%nat (set_waiting_list bea_busy [0; 1]%nat)
    = Ok (Some head, w3) /\
    head :: waiting_list w3
    = waiting_list (set_waiting_list bea_busy [0; 1]%nat) /\
    (waiting_list bea_busy = [] -> head = 0%nat /\ waiting_list w3 = [1%nat]).
Proof.
  refine (proj2 (proj2
    (C2_waiting_list_fifo 0%nat 1%nat 0%nat bea_busy
       (set_waiting_list bea_busy [0%nat])
       (set_waiting_list bea_busy [0; 1]%nat) _ _ _))).
  - reflexivity.
  - reflexivity.
  - intros e He Hne. simpl in He. destruct He as [<- | []].
    simpl. discriminate.
Defined.

Lemma NoDup_snoc {A : Type} (x : A) (l : list A) :
  NoDup l -> ~ In x l -> NoDup (l ++ [x]).
Proof.
  induction 1 as [ | y l Hy Hnd IH]; intros Hx; simpl.
  - constructor; [ intros [] | constructor ].
  - constructor.
    + intros Hin. apply in_app_or in Hin. destruct Hin as [Hin | [E | []]].
      * exact (Hy Hin).
      * apply Hx. left. symmetry. exact E.
    + apply IH. intros Hin. apply Hx. right. exact Hin.
Qed.

(** Outside the data model, which gives every driver an identifier of its
    own: two records that carry the identifier "amy" and differ in their
    location are told apart by [Driver.__eq__], and both are registered. *)
Example same_identifier_records_both_registered :
  d_id (sample_drivers 0%nat) = d_id (sample_drivers 3%nat) /\
  request_rider 0%nat (Dispatcher_init sample_drivers sample_riders)
  = Ok (None, mkWorld sample_drivers sample_riders [] [0%nat] []) /\
  request_rider 3%nat (mkWorld sample_drivers sample_riders [] [0%nat] [])
  = Ok (None, mkWorld sample_drivers sample_riders [] [0; 3]%nat []).
Proof. repeat split. Qed.




(** A driver who was not registered is appended, once. *)
Example registration_of_cal :
  request_rider 2%nat (mkWorld sample_drivers sample_riders [] [0; 1]%nat [])
  = Ok (None, mkWorld sample_drivers sample_riders [] [0; 1; 2]%nat []) /\
  request_rider 2%nat (mkWorld sample_drivers sample_riders [] [0; 1; 2]%nat [])
  = Ok (None, mkWorld sample_drivers sample_riders [] [0; 1; 2]%nat []).
Proof. split; reflexivity. Qed.

(** ** Events *)

Lemma scan_registry_notify (w : World) (n : Notification) (target : Location)
    (reg : list ref) :
  forall fd ft,
    scan_registry (notify w n) target reg fd ft
    = scan_registry w target reg fd ft.
Proof.
  induction reg as [ | e rest IH]; intros fd ft; [ reflexivity | ].
  cbn [scan_registry notify drivers].
  destruct (is_idle (drivers w e)); [ | apply IH ].
  destruct fd as [d | ];
    destruct (get_travel_time (drivers w e) target) as [t | x];
    simpl; try reflexivity; [ | apply IH ].
  destruct (t <? ft); apply IH.
Qed.

(** The monitor plays no part in the choice of a driver. *)
Lemma request_driver_notify (rider : ref) (w : World) (n : Notification) :
  request_driver rider (notify w n)
  = ('(d, w') <- request_driver rider w ;; Ok (d, notify w' n)).
Proof.
  unfold request_driver. cbn [notify driver_registry riders waiting_list].
  rewrite scan_registry_notify.
  destruct (List.length (driver_registry w) =? 0)%nat; [ reflexivity | ].
  destruct (scan_registry w (origin (riders w rider)) (driver_registry w)
              None 0) as [[[d | ] ft] | x]; reflexivity.
Qed.

Lemma start_drive_ok (d : Driver) (loc : Location) (t : Z) :
  get_travel_time d loc = Ok t ->
  start_drive d loc
  = Ok (t, mkDriver (d_id d) (location d) (speed d) false (Some loc)).
Proof.
  unfold start_drive, get_travel_time. simpl. intros ->. reflexivity.
Qed.

(** C3: when the travel times of the idle registered drivers to the rider's
    origin are computed, executing a RiderRequest at time [t] for rider [r]
    returns a list of events holding exactly one Cancellation, for [r] at
    [t + r.patience], whether or not a driver was found; it holds a Pickup
    exactly when the dispatcher returned a driver, and that Pickup is for [r]
    and the driver at [t] plus the driver's travel time to the rider's
    origin. *)
Theorem C3_rider_request_events (t : Z) (r : ref) (w : World) :
  (forall e, In e (driver_registry w) -> is_idle (drivers w e) = true ->
             reaches (drivers w e) (origin (riders w r))) ->
  exists evs w',
    do (RiderRequest t r) w = Ok (evs, w') /\
    filter is_Cancellation evs = [Cancellation (t + patience (riders w r)) r] /\
    ((exists e, In e evs /\ is_Pickup e = true) <->
     (exists d w1, request_driver r w = Ok (Some d, w1))) /\
    (forall d w1,
        request_driver r w = Ok (Some d, w1) ->
        exists tt,
          get_travel_time (drivers w d) (origin (riders w r)) = Ok tt /\
          evs = [Pickup (t + tt) r d;
                 Cancellation (t + patience (riders w r)) r]) /\
    (forall w1,
        request_driver r w = Ok (None, w1) ->
        evs = [Cancellation (t + patience (riders w r)) r]).
Proof.
  intros Hready.
  destruct (request_driver_cases r w Hready)
    as [[_ Hreq] | (i & e & tt & Hreq & _ & _ & Htt & _)].
  - exists [Cancellation (t + patience (riders w r)) r]. eexists.
    split; [ | split; [ reflexivity | split; [ | split ] ] ].
    + cbn [do]. unfold RiderRequest_do.
      rewrite request_driver_notify, Hreq. reflexivity.
    + split.
      * intros (x & [<- | []] & Hx). discriminate Hx.
      * intros (d & w1 & H). rewrite Hreq in H. discriminate H.
    + intros d w1 H. rewrite Hreq in H. discriminate H.
    + intros _ _. reflexivity.
  - exists [Pickup (t + tt) r e; Cancellation (t + patience (riders w r)) r].
    eexists.
    split; [ | split; [ reflexivity | split; [ | split ] ] ].
    + cbn [do]. unfold RiderRequest_do.
      rewrite request_driver_notify, Hreq.
      cbn [bind notify drivers riders].
      rewrite (start_drive_ok _ _ _ Htt). reflexivity.
    + split.
      * intros _. exists e, w. exact Hreq.
      * intros _. eexists. split; [ left; reflexivity | reflexivity ].
    + intros d w1 H. rewrite Hreq in H. injection H as <- _.
      exists tt. split; [ exact Htt | reflexivity ].
    + intros w1 H. rewrite Hreq in H. discriminate H.
Qed.

Lemma C3_rider_request_events_witness :
  exists evs w',
    do (RiderRequest 0 0) three_idle = Ok (evs, w') /\
    filter is_Cancellation evs
    = [Cancellation (0 + patience (riders three_idle 0%nat)) 0] /\
    ((exists e, In e evs /\ is_Pickup e = true) <->
     (exists d w1, request_driver 0%nat three_idle = Ok (Some d, w1))) /\
    (forall d w1,
        request_driver 0%nat three_idle = Ok (Some d, w1) ->
        exists tt,
          get_travel_time (drivers three_idle d)
            (origin (riders three_idle 0%nat)) = Ok tt /\
          evs = [Pickup (0 + tt) 0 d;
                 Cancellation (0 + patience (riders three_idle 0%nat)) 0]) /\
    (forall w1,
        request_driver 0%nat three_idle = Ok (None, w1) ->
        evs = [Cancellation (0 + patience (riders three_idle 0%nat)) 0]).
Proof.
  apply (C3_rider_request_events 0 0%nat three_idle).
  intros e He _. simpl in He.
  destruct He as [<- | [<- | [<- | []]]]; exists 3; vm_compute; reflexivity.
Defined.

(** ann asks at time 0 with amy idle three units away: a Pickup at 3 and the
    Cancellation at 20; with nobody registered, the Cancellation alone. *)
Example rider_request_matched :
  exists w', do (RiderRequest 0 0) three_idle
             = Ok ([Pickup 3 0 0; Cancellation 20 0], w').
Proof. eexists. reflexivity. Qed.

Example rider_request_unmatched :
  exists w', do (RiderRequest 5 0) (Dispatcher_init sample_drivers sample_riders)
             = Ok ([Cancellation 25 0], w').
Proof. eexists. reflexivity. Qed.

(** ** Rider status *)

Lemma status_mono_refl (a : Status) : status_mono a a.
Proof. left. reflexivity. Qed.

Lemma status_mono_trans (a b c : Status) :
  status_mono a b -> status_mono b c -> status_mono a c.
Proof.
  unfold status_mono.
  intros [-> | [-> [-> | ->]]] [<- | [E H]]; try discriminate E; auto.
Qed.

Lemma request_driver_riders (r : ref) (w w' : World) (x : option ref) :
  request_driver r w = Ok (x, w') -> riders w' = riders w.
Proof.
  unfold request_driver.
  destruct (List.length (driver_registry w) =? 0)%nat.
  - intros H; injection H as _ <-; reflexivity.
  - destruct (scan_registry w (origin (riders w r)) (driver_registry w) None 0)
      as [[[fd | ] ft] | ]; simpl; intros H; try discriminate H;
      injection H as _ <-; reflexivity.
Qed.

Lemma request_rider_riders (d : ref) (w w' : World) (x : option ref) :
  request_rider d w = Ok (x, w') -> riders w' = riders w.
Proof.
  unfold request_rider.
  destruct (driver_in w d (driver_registry w)) as [known | ]; simpl;
    [ | discriminate ].
  destruct known; simpl; destruct (waiting_list w); intros H;
    injection H as _ <-; reflexivity.
Qed.

(** One event moves the status of every rider along an allowed transition. *)
Lemma do_status_mono (e : Event) (w w' : World) (evs : list Event) :
  do e w = Ok (evs, w') ->
  forall r, status_mono (status (riders w r)) (status (riders w' r)).
Proof.
  destruct e as [t x | t d | t x | t x d | t x d]; cbn [do].
  - unfold RiderRequest_do. intros H r.
    destruct (request_driver x _) as [[[d | ] w2] | ] eqn:Hreq;
      try discriminate H; apply request_driver_riders in Hreq;
      cbn [bind] in H.
    + destruct (start_drive _ _) as [[tt d'] | ]; try discriminate H.
      cbn [bind] in H. injection H as _ <-. simpl. rewrite Hreq.
      apply status_mono_refl.
    + injection H as _ <-. rewrite Hreq. apply status_mono_refl.
  - unfold DriverRequest_do. intros H r.
    destruct (request_rider d _) as [[[x | ] w2] | ] eqn:Hreq;
      try discriminate H; apply request_rider_riders in Hreq;
      cbn [bind] in H.
    + destruct (start_drive _ _) as [[tt d'] | ]; try discriminate H.
      cbn [bind] in H. injection H as _ <-. simpl. rewrite Hreq.
      apply status_mono_refl.
    + injection H as _ <-. rewrite Hreq. apply status_mono_refl.
  - unfold Cancellation_do. intros H r.
    destruct (status (riders w x)) eqn:Hst; simpl in H; injection H as _ <-;
      try apply status_mono_refl.
    + unfold cancel_ride. destruct (rider_in x (waiting_list w)); simpl;
        unfold upd; destruct (Nat.eqb_spec r x) as [-> | _]; simpl;
        try apply status_mono_refl; rewrite Hst; right; auto.
    + unfold cancel_ride. destruct (rider_in x (waiting_list w)); simpl;
        unfold upd; destruct (Nat.eqb_spec r x) as [-> | _]; simpl;
        try apply status_mono_refl; rewrite Hst; left; reflexivity.
  - unfold Pickup_do, end_drive. cbn [bind]. intros H r.
    cbn [set_driver riders] in H.
    destruct (status (riders w x)) eqn:Hst; simpl in H.
    + destruct (start_ride _ _) as [[tt d2] | ]; try discriminate H.
      cbn [bind] in H. injection H as _ <-. simpl.
      unfold upd. destruct (Nat.eqb_spec r x) as [-> | _]; simpl;
        [ rewrite Hst; right; auto | apply status_mono_refl ].
    + injection H as _ <-. apply status_mono_refl.
    + injection H as _ <-. apply status_mono_refl.
  - unfold Dropoff_do, end_ride. cbn [bind]. intros H r.
    injection H as _ <-. apply status_mono_refl.
Qed.

Lemma reach_status_mono (w w' : World) :
  reach w w' ->
  forall r, status_mono (status (riders w r)) (status (riders w' r)).
Proof.
  induction 1 as [w | w w1 w2 e evs Hdo _ IH]; intros r.
  - apply status_mono_refl.
  - apply (status_mono_trans _ (status (riders w1 r))).
    + apply (do_status_mono e w w1 evs Hdo).
    + apply IH.
Qed.

(** C4: along every execution of events the status of every rider changes
    only from Waiting to Cancelled or from Waiting to Satisfied, so a rider
    that has left Waiting keeps its status; a new rider is Waiting; a
    Cancellation for a Satisfied rider changes nothing at all, status and
    waiting list included; a Pickup for a Cancelled rider leaves every
    rider's status as it is and only sends the driver back to ask for a
    rider. *)
Theorem C4_status_monotonic (w w' : World) :
  reach w w' ->
  (forall r, status_mono (status (riders w r)) (status (riders w' r))) /\
  (forall r, status (riders w r) <> WAITING ->
             status (riders w' r) = status (riders w r)) /\
  (forall id o d p, status (Rider_init id o d p) = WAITING) /\
  (forall t r, status (riders w' r) = SATISFIED ->
               do (Cancellation t r) w' = Ok ([], w')) /\
  (forall t r d,
      status (riders w' r) = CANCELLED ->
      exists w2,
        do (Pickup t r d) w' = Ok ([DriverRequest t d], w2) /\
        riders w2 = riders w' /\
        status (riders w2 r) = CANCELLED).
Proof.
  intros Hreach.
  pose proof (reach_status_mono w w' Hreach) as Hmono.
  split; [ exact Hmono | split; [ | split; [ reflexivity | split ] ] ].
  - intros r Hr. destruct (Hmono r) as [E | [E _]]; congruence.
  - intros t r Hs. cbn [do]. unfold Cancellation_do. rewrite Hs. reflexivity.
  - intros t r d Hs. cbn [do]. unfold Pickup_do, end_drive. cbn [bind].
    cbn [set_driver riders]. rewrite Hs. simpl.
    eexists. split; [ reflexivity | split; [ reflexivity | exact Hs ] ].
Qed.

Lemma C4_status_monotonic_witness :
  (forall r, status_mono (status (riders three_idle r))
                         (status (riders ann_cancelled r))) /\
  (forall r, status (riders three_idle r) <> WAITING ->
             status (riders ann_cancelled r) = status (riders three_idle r)) /\
  (forall id o d p, status (Rider_init id o d p) = WAITING) /\
  (forall t r, status (riders ann_cancelled r) = SATISFIED ->
               do (Cancellation t r) ann_cancelled = Ok ([], ann_cancelled)) /\
  (forall t r d,
      status (riders ann_cancelled r) = CANCELLED ->
      exists w2,
        do (Pickup t r d) ann_cancelled = Ok ([DriverRequest t d], w2) /\
        riders w2 = riders ann_cancelled /\
        status (riders w2 r) = CANCELLED).
Proof.
  apply (C4_status_monotonic three_idle ann_cancelled).
  apply (reach_step three_idle ann_cancelled ann_cancelled
           (Cancellation 20 0) []).
  - reflexivity.
  - apply reach_refl.
Defined.

(** ** Cancelling twice *)

Lemma list_remove_not_in (r : ref) (l : list ref) :
  NoDup l -> rider_in r (list_remove r l) = false.
Proof.
  unfold rider_in. induction 1 as [ | x l Hx Hnd IH]; [ reflexivity | ].
  simpl. destruct (Nat.eqb_spec x r) as [-> | Hne].
  - destruct (existsb (fun e => Nat.eqb e r) l) eqn:E; [ | reflexivity ].
    apply existsb_exists in E. destruct E as (y & Hy & Hyr).
    apply Nat.eqb_eq in Hyr. subst y. contradiction.
  - simpl. rewrite IH. destruct (Nat.eqb_spec x r); [ contradiction | ].
    reflexivity.
Qed.

Lemma Cancellation_do_cases (t : Z) (r : ref) (w : World) :
  (status (riders w r) = SATISFIED /\ Cancellation_do t r w = Ok ([], w)) \/
  (status (riders w r) <> SATISFIED /\
   Cancellation_do t r w = Ok ([], cancelled t r w)).
Proof.
  unfold Cancellation_do, cancelled.
  destruct (status (riders w r)); simpl;
    [ right | right | left ]; split; try reflexivity; discriminate.
Qed.

Lemma cancel_ride_frame (r : ref) (w : World) :
  riders (cancel_ride r w) = riders w /\
  drivers (cancel_ride r w) = drivers w /\
  driver_registry (cancel_ride r w) = driver_registry w.
Proof.
  unfold cancel_ride. destruct (rider_in r (waiting_list w)); repeat split.
Qed.

Lemma cancel_ride_absent (r : ref) (w : World) :
  NoDup (waiting_list w) ->
  rider_in r (waiting_list (cancel_ride r w)) = false.
Proof.
  intros Hnd. unfold cancel_ride.
  destruct (rider_in r (waiting_list w)) eqn:Hin; [ | exact Hin ].
  cbn [set_waiting_list waiting_list]. apply list_remove_not_in. exact Hnd.
Qed.

Lemma cancelled_state (t : Z) (r : ref) (w : World) :
  waiting_list (cancelled t r w) = waiting_list (cancel_ride r w) /\
  riders (cancelled t r w) = upd (riders w) r (set_status (riders w r) CANCELLED) /\
  drivers (cancelled t r w) = drivers w /\
  driver_registry (cancelled t r w) = driver_registry w.
Proof.
  destruct (cancel_ride_frame r w) as (Hr & Hd & Hg).
  unfold cancelled. cbn [notify set_rider waiting_list riders drivers
                         driver_registry].
  rewrite Hr. repeat split; assumption.
Qed.

(** C10: on a waiting list without duplicates (the data model's), a second
    Cancellation for the same rider returns, like the first, the empty list
    of events, and leaves the waiting list and the record of every rider,
    the status among it, as the first execution left them; that status is
    Cancelled unless the rider was Satisfied, in which case nothing ever
    changed.  Drivers and registry are not touched either. *)
Theorem C10_cancellation_idempotent (t t' : Z) (r : ref) (w : World) :
  NoDup (waiting_list w) ->
  exists w1 w2,
    do (Cancellation t r) w = Ok ([], w1) /\
    do (Cancellation t' r) w1 = Ok ([], w2) /\
    status (riders w2 r) = status (riders w1 r) /\
    waiting_list w2 = waiting_list w1 /\
    (forall x, riders w2 x = riders w1 x) /\
    (status (riders w r) <> SATISFIED -> status (riders w1 r) = CANCELLED) /\
    (status (riders w r) = SATISFIED -> w1 = w /\ w2 = w) /\
    drivers w2 = drivers w /\
    driver_registry w2 = driver_registry w.
Proof.
  intros Hnd. cbn [do].
  destruct (Cancellation_do_cases t r w) as [[Hs H1] | [Hs H1]].
  - exists w, w.
    destruct (Cancellation_do_cases t' r w) as [[_ H2] | [Hs' _]];
      [ | contradiction ].
    repeat split; try assumption; try reflexivity. intros; contradiction.
  - destruct (cancelled_state t r w) as (Hwl & Hri & Hdr & Hrg).
    assert (Hst : status (riders (cancelled t r w) r) = CANCELLED).
    { rewrite Hri. unfold upd. rewrite Nat.eqb_refl. reflexivity. }
    destruct (Cancellation_do_cases t' r (cancelled t r w))
      as [[Hs' _] | [_ H2]]; [ congruence | ].
    destruct (cancelled_state t' r (cancelled t r w)) as (Hwl2 & Hri2 & Hdr2 & Hrg2).
    assert (Hsame : forall x, riders (cancelled t' r (cancelled t r w)) x
                              = riders (cancelled t r w) x).
    { intros x. rewrite Hri2. unfold upd at 1.
      destruct (Nat.eqb_spec x r) as [-> | _]; [ | reflexivity ].
      rewrite Hri. unfold upd. rewrite Nat.eqb_refl. reflexivity. }
    exists (cancelled t r w), (cancelled t' r (cancelled t r w)).
    split; [ exact H1 | split; [ exact H2 | ] ].
    split; [ rewrite Hsame; reflexivity | ].
    split; [ | split; [ exact Hsame | split; [ intros _; exact Hst | ] ] ].
    + rewrite Hwl2. unfold cancel_ride at 1.
      rewrite Hwl, (cancel_ride_absent r w Hnd). reflexivity.
    + split; [ intros E; contradiction | ].
      split; congruence.
Qed.

Lemma C10_cancellation_idempotent_witness :
  exists w1 w2,
    do (Cancellation 20 0) two_waiting = Ok ([], w1) /\
    do (Cancellation 21 0) w1 = Ok ([], w2) /\
    status (riders w2 0%nat) = status (riders w1 0%nat) /\
    waiting_list w2 = waiting_list w1 /\
    (forall x, riders w2 x = riders w1 x) /\
    (status (riders two_waiting 0%nat) <> SATISFIED ->
     status (riders w1 0%nat) = CANCELLED) /\
    (status (riders two_waiting 0%nat) = SATISFIED ->
     w1 = two_waiting /\ w2 = two_waiting) /\
    drivers w2 = drivers two_waiting /\
    driver_registry w2 = driver_registry two_waiting.
Proof.
  apply (C10_cancellation_idempotent 20 21 0%nat two_waiting).
  simpl. repeat constructor; simpl; intuition congruence.
Defined.

(** The first Cancellation takes ann off the waiting list and the second
    finds nothing to remove. *)
Example cancellation_twice :
  exists w1 w2,
    do (Cancellation 20 0) two_waiting = Ok ([], w1) /\
    waiting_list w1 = [1%nat] /\ status (riders w1 0%nat) = CANCELLED /\
    do (Cancellation 21 0) w1 = Ok ([], w2) /\
    waiting_list w2 = [1%nat] /\ status (riders w2 0%nat) = CANCELLED.
Proof. eexists; eexists. repeat split; reflexivity. Qed.

(** A Pickup whose driver has no destination goes through: the driver ends
    with no location and, the rider having cancelled, asks for a new rider. *)
Example pickup_without_destination :
  exists w', do (Pickup 25 0 0) ann_cancelled = Ok ([DriverRequest 25 0], w') /\
             location (drivers w' 0%nat) = None /\
             is_idle (drivers w' 0%nat) = true.
Proof. eexists. repeat split; reflexivity. Qed.

(** ** A whole ride

    amy registers at time 0 and finds nobody; ann asks at time 0 and is given
    amy, three units away; the Pickup at 3 starts the ride of seven units; the
    Dropoff at 10 sends amy back to the dispatcher; the Cancellation at 20
    finds ann Satisfied and does nothing.  The events returned by each step
    are listed, then ann's status, amy's location and idle flag, the registry
    and the waiting list at the end. *)
Example ride_of_ann :
  ('(e1, w1) <- do (DriverRequest 0 0)
                   (Dispatcher_init sample_drivers sample_riders) ;;
   '(e2, w2) <- do (RiderRequest 0 0) w1 ;;
   '(e3, w3) <- do (Pickup 3 0 0) w2 ;;
   '(e4, w4) <- do (Dropoff 10 0 0) w3 ;;
   '(e5, w5) <- do (DriverRequest 10 0) w4 ;;
   '(e6, w6) <- do (Cancellation 20 0) w5 ;;
   Ok ([e1; e2; e3; e4; e5; e6],
       status (riders w6 0%nat),
       location (drivers w6 0%nat), is_idle (drivers w6 0%nat),
       driver_registry w6, waiting_list w6))
  = Ok ([ []; [Pickup 3 0 0; Cancellation 20 0]; [Dropoff 10 0 0];
          [DriverRequest 10 0]; []; [] ],
        SATISFIED, Some (mkLocation 0 10), true, [0%nat], []).
Proof. vm_compute. reflexivity. Qed.

(** * Further properties of the code *)

(** ** location.py *)

(** X1: [manhattan_distance] is a metric on locations: it is never negative,
    it is symmetric, it is zero exactly for two locations that [==] calls
    equal, and it obeys the triangle inequality. *)
Theorem X1_manhattan_distance_metric (a b c : Location) :
  0 <= manhattan_distance a b /\
  manhattan_distance a b = manhattan_distance b a /\
  (manhattan_distance a b = 0 <-> Location_eq a b = true) /\
  manhattan_distance a c <= manhattan_distance a b + manhattan_distance b c.
Proof.
  unfold manhattan_distance.
  split; [ lia | split; [ lia | split; [ | lia ] ] ].
  rewrite Location_eq_true. destruct a as [ra ca], b as [rb cb]. simpl. split.
  - intros H. f_equal; lia.
  - intros H. injection H as -> ->. lia.
Qed.

(** ** driver.py *)

(** X2: [Driver.__eq__] answers True on a driver and itself, gives the same
    answer or the same error with its operands swapped, is transitive where it
    answers True, and does not look at the idle flag. *)
Theorem X2_driver_eq_equivalence (a b c : Driver) (idle : bool) :
  Driver_eq a a = Ok true /\
  Driver_eq a b = Driver_eq b a /\
  (Driver_eq a b = Ok true -> Driver_eq b c = Ok true ->
   Driver_eq a c = Ok true) /\
  Driver_eq (mkDriver (d_id a) (location a) (speed a) idle (destination a)) b
  = Driver_eq a b.
Proof.
  split; [ | split; [ apply Driver_eq_sym | split; [ | reflexivity ] ] ].
  - apply Driver_eq_true. repeat split.
  - rewrite !Driver_eq_true. unfold same_record.
    intros (A1 & A2 & A3 & A4) (B1 & B2 & B3 & B4).
    repeat split; congruence.
Qed.

Lemma X2_driver_eq_equivalence_witness :
  Driver_eq amy amy = Ok true /\
  Driver_eq amy amy_twin = Driver_eq amy_twin amy.
Proof.
  split.
  - exact (proj1 (X2_driver_eq_equivalence amy amy_twin cal false)).
  - exact (proj1 (proj2 (X2_driver_eq_equivalence amy amy_twin cal false))).
Defined.

Lemma opt_Location_eq_raises (a b : option Location) :
  opt_Location_eq a b = Raise AttributeError <-> one_missing a b.
Proof.
  unfold one_missing.
  destruct a as [x | ], b as [y | ]; simpl; split; intros H;
    try discriminate H; try reflexivity.
  - destruct H as [[H _] | [_ H]]; discriminate H.
  - right. split; [ discriminate | reflexivity ].
  - left. split; [ reflexivity | discriminate ].
  - destruct H as [[_ H] | [H _]]; congruence.
Qed.

(** X3: [Driver.__eq__] raises only AttributeError, and exactly in two cases:
    the identifiers agree and one of the two locations is missing, or the
    identifiers and the locations agree and one of the two destinations is
    missing (a driver on its way compared with one that is not).  Drivers
    with different identifiers are always compared without error. *)
Theorem X3_driver_eq_errors (a b : Driver) :
  (Driver_eq a b = Raise AttributeError <->
   d_id a = d_id b /\
   (one_missing (location a) (location b) \/
    (location a = location b /\
     one_missing (destination a) (destination b)))) /\
  Driver_eq a b <> Raise ZeroDivisionError /\
  Driver_eq a b <> Raise OverflowError /\
  (d_id a <> d_id b -> Driver_eq a b = Ok false).
Proof.
  unfold Driver_eq.
  destruct (String.eqb_spec (d_id a) (d_id b)) as [Hid | Hid].
  - pose proof (opt_Location_eq_raises (location a) (location b)) as Hl.
    pose proof (opt_Location_eq_true (location a) (location b)) as Hlt.
    pose proof (opt_Location_eq_raises (destination a) (destination b)) as Hd.
    destruct (opt_Location_eq (location a) (location b))
      as [[ | ] | [ | | ]] eqn:El; simpl.
    + destruct (opt_Location_eq (destination a) (destination b))
        as [[ | ] | [ | | ]] eqn:Ed; simpl.
      * split; [ | split; [ discriminate | split; [ discriminate | contradiction ] ] ].
        split; [ discriminate | ].
        intros (_ & [H | [_ H]]).
        -- apply Hl in H. discriminate H.
        -- apply Hd in H. discriminate H.
      * split; [ | split; [ discriminate | split; [ discriminate | contradiction ] ] ].
        split; [ discriminate | ].
        intros (_ & [H | [_ H]]).
        -- apply Hl in H. discriminate H.
        -- apply Hd in H. discriminate H.
      * destruct (destination a) as [x | ], (destination b) as [y | ];
          simpl in Ed; discriminate Ed.
      * split; [ | split; [ discriminate | split; [ discriminate | contradiction ] ] ].
        split; [ | reflexivity ].
        intros _. split; [ exact Hid | ]. right.
        split; [ apply Hlt; reflexivity | apply Hd; reflexivity ].
      * destruct (destination a) as [x | ], (destination b) as [y | ];
          simpl in Ed; discriminate Ed.
    + split; [ | split; [ discriminate | split; [ discriminate | contradiction ] ] ].
      split; [ discriminate | ].
      intros (_ & [H | [H _]]).
      * apply Hl in H. discriminate H.
      * apply Hlt in H. discriminate H.
    + destruct (location a) as [x | ], (location b) as [y | ];
        simpl in El; discriminate El.
    + split; [ | split; [ discriminate | split; [ discriminate | contradiction ] ] ].
      split; [ | reflexivity ].
      intros _. split; [ exact Hid | ]. left. apply Hl. reflexivity.
    + destruct (location a) as [x | ], (location b) as [y | ];
        simpl in El; discriminate El.
  - split; [ | split; [ discriminate | split; [ discriminate | reflexivity ] ] ].
    split; [ discriminate | intros [H _]; contradiction ].
Qed.

Lemma X3_driver_eq_errors_witness :
  Driver_eq amy cal = Ok false.
Proof.
  apply (proj2 (proj2 (proj2 (X3_driver_eq_errors amy cal)))).
  simpl. discriminate.
Defined.

Lemma manhattan_distance_nonneg (a b : Location) :
  0 <= manhattan_distance a b.
Proof. unfold manhattan_distance. lia. Qed.

Lemma manhattan_distance_same (a b : Location) :
  Location_eq a b = true -> manhattan_distance a b = 0.
Proof.
  intros H. apply Location_eq_true in H. subst b.
  unfold manhattan_distance. lia.
Qed.

Lemma round_half_even_div_monotone (n n' d : Z) :
  0 < d -> n <= n' ->
  round_half_even_div n d <= round_half_even_div n' d.
Proof.
  intros Hd Hle.
  destruct (Z.eq_dec n n') as [-> | Hne]; [ lia | ].
  destruct (round_half_even_div_nearest n d) as [H _]; [ lia | ].
  destruct (round_half_even_div_nearest n' d) as [H' _]; [ lia | ].
  set (t := round_half_even_div n d) in *.
  set (t' := round_half_even_div n' d) in *.
  assert (Habs : Z.abs d = d) by lia. rewrite Habs in H, H'.
  apply Z.abs_le in H. apply Z.abs_le in H'.
  destruct (Z_lt_le_dec t' t) as [Hgt | Hok]; [ exfalso | exact Hok ].
  assert ((t' + 1) * d <= t * d) by (apply Z.mul_le_mono_nonneg_r; lia). lia.
Qed.

(** X4: for a driver with a location and a positive speed, and targets less
    than [2 ^ 52] away, the travel time is computed without error, lies
    between zero and the Manhattan distance, equals the distance at speed
    one, is zero for the place the driver is at, and does not decrease when
    the target gets farther away. *)
Theorem X4_travel_time_bounds (self : Driver) (loc target target' : Location) :
  location self = Some loc ->
  0 < speed self ->
  manhattan_distance loc target < 2 ^ 52 ->
  manhattan_distance loc target' < 2 ^ 52 ->
  exists t t',
    get_travel_time self target = Ok t /\
    get_travel_time self target' = Ok t' /\
    0 <= t <= manhattan_distance loc target /\
    (speed self = 1 -> t = manhattan_distance loc target) /\
    (Location_eq loc target = true -> t = 0) /\
    (manhattan_distance loc target <= manhattan_distance loc target' ->
     t <= t').
Proof.
  intros Hloc Hsp Hnear Hnear'.
  pose proof (manhattan_distance_nonneg loc target) as Hnn.
  rewrite (get_travel_time_exact self loc target Hloc Hsp Hnear).
  rewrite (get_travel_time_exact self loc target' Hloc Hsp Hnear').
  eexists. eexists. split; [ reflexivity | split; [ reflexivity | ] ].
  pose proof (round_half_even_div_bounds (manhattan_distance loc target)
                (speed self) Hnn Hsp) as Hb.
  split; [ exact Hb | split; [ | split ] ].
  - intros H1.
    destruct (round_half_even_div_nearest (manhattan_distance loc target)
                (speed self)) as [H _]; [ lia | ].
    rewrite H1 in *. lia.
  - intros Heq. rewrite (manhattan_distance_same _ _ Heq) in Hb |- *. lia.
  - intros Hle. apply round_half_even_div_monotone; assumption.
Qed.

Lemma X4_travel_time_bounds_witness :
  exists t t',
    get_travel_time bea (mkLocation 0 3) = Ok t /\
    get_travel_time bea (mkLocation 5 5) = Ok t' /\
    0 <= t <= manhattan_distance (mkLocation 0 6) (mkLocation 0 3) /\
    (speed bea = 1 ->
     t = manhattan_distance (mkLocation 0 6) (mkLocation 0 3)) /\
    (Location_eq (mkLocation 0 6) (mkLocation 0 3) = true -> t = 0) /\
    (manhattan_distance (mkLocation 0 6) (mkLocation 0 3)
     <= manhattan_distance (mkLocation 0 6) (mkLocation 5 5) ->
     t <= t').
Proof.
  apply (X4_travel_time_bounds bea (mkLocation 0 6)
           (mkLocation 0 3) (mkLocation 5 5)).
  - reflexivity.
  - simpl; lia.
  - vm_compute; reflexivity.
  - vm_compute; reflexivity.
Defined.

(** A travel time is computed only for a driver with a location and a
    non-zero speed. *)
Lemma get_travel_time_ok_ready (d : Driver) (target : Location) (t : Z) :
  get_travel_time d target = Ok t -> ready d.
Proof.
  unfold get_travel_time, ready.
  destruct (location d) as [loc | ]; [ | discriminate ].
  intros H. apply round_div_ok_nonzero in H.
  split; [ discriminate | exact H ].
Qed.

(** X5: a drive and a ride each end where they were headed.  When the
    travel time to the target is computed, [start_drive] returns it, and
    [end_drive] after it leaves the driver idle, without destination, at the
    target, from where the travel time to that target is zero; [start_ride]
    and [end_ride] do the same towards the rider's destination.  Identifier
    and speed are kept.  Either call returns only when the travel time is
    computed. *)
Theorem X5_drive_and_ride_arrive
    (self : Driver) (target : Location) (rider : Rider) :
  (reaches self target ->
   exists t d1 d2,
      start_drive self target = Ok (t, d1) /\
      get_travel_time self target = Ok t /\
      is_idle d1 = false /\ location d1 = location self /\
      end_drive d1 = Ok d2 /\
      d2 = mkDriver (d_id self) (Some target) (speed self) true None /\
      get_travel_time d2 target = Ok 0) /\
  (reaches self (r_destination rider) ->
   exists t d1 d2,
      start_ride self rider = Ok (t, d1) /\
      get_travel_time self (r_destination rider) = Ok t /\
      is_idle d1 = false /\ location d1 = location self /\
      end_ride d1 = Ok d2 /\
      d2 = mkDriver (d_id self) (Some (r_destination rider)) (speed self)
                    true None /\
      get_travel_time d2 (r_destination rider) = Ok 0) /\
  (forall t d1, start_drive self target = Ok (t, d1) ->
                get_travel_time self target = Ok t) /\
  (forall t d1, start_ride self rider = Ok (t, d1) ->
                get_travel_time self (r_destination rider) = Ok t).
Proof.
  assert (Hz : forall (x y : Location) (t : Z),
             get_travel_time self y = Ok t ->
             get_travel_time (mkDriver (d_id self) (Some x) (speed self)
                                       true None) x = Ok 0).
  { intros x y t Ht. unfold get_travel_time. simpl.
    rewrite (manhattan_distance_same x x) by (apply Location_eq_true; reflexivity).
    apply round_div_zero.
    exact (proj2 (get_travel_time_ok_ready self y t Ht)). }
  split; [ | split; [ | split ] ].
  - intros [t Ht].
    exists t. eexists. eexists.
    split; [ apply start_drive_ok; exact Ht | ].
    split; [ exact Ht | ].
    repeat split. apply (Hz _ _ _ Ht).
  - intros [t Ht].
    exists t. eexists. eexists.
    split; [ rewrite start_ride_eq, Ht; reflexivity | ].
    split; [ exact Ht | ].
    repeat split. apply (Hz _ _ _ Ht).
  - intros t d1. rewrite start_drive_eq.
    destruct (get_travel_time self target) as [t0 | x]; simpl; intros H;
      [ injection H as -> _; reflexivity | discriminate H ].
  - intros t d1. rewrite start_ride_eq.
    destruct (get_travel_time self (r_destination rider)) as [t0 | x]; simpl;
      intros H; [ injection H as -> _; reflexivity | discriminate H ].
Qed.

Lemma X5_drive_and_ride_arrive_witness :
  (exists t d1 d2,
      start_drive amy (mkLocation 0 3) = Ok (t, d1) /\
      get_travel_time amy (mkLocation 0 3) = Ok t /\
      is_idle d1 = false /\ location d1 = location amy /\
      end_drive d1 = Ok d2 /\
      d2 = mkDriver (d_id amy) (Some (mkLocation 0 3)) (speed amy) true None /\
      get_travel_time d2 (mkLocation 0 3) = Ok 0) /\
  (exists t d1 d2,
      start_ride amy ann = Ok (t, d1) /\
      get_travel_time amy (r_destination ann) = Ok t /\
      is_idle d1 = false /\ location d1 = location amy /\
      end_ride d1 = Ok d2 /\
      d2 = mkDriver (d_id amy) (Some (r_destination ann)) (speed amy)
                    true None /\
      get_travel_time d2 (r_destination ann) = Ok 0).
Proof.
  split.
  - apply (proj1 (X5_drive_and_ride_arrive amy (mkLocation 0 3) ann)).
    exists 3. vm_compute. reflexivity.
  - apply (proj1 (proj2 (X5_drive_and_ride_arrive amy (mkLocation 0 3) ann))).
    exists 10. vm_compute. reflexivity.
Defined.

(** ** dispatcher.py *)

Lemma scan_registry_result (w : World) (target : Location) (reg : list ref) :
  forall fd ft d t,
    scan_registry w target reg fd ft = Ok (Some d, t) ->
    fd = Some d \/ (In d reg /\ is_idle (drivers w d) = true).
Proof.
  induction reg as [ | e rest IH]; intros fd ft d t H; simpl in H.
  - injection H as -> _. left. reflexivity.
  - destruct (is_idle (drivers w e)) eqn:Hidle.
    + destruct fd as [f | ];
        destruct (get_travel_time (drivers w e) target) as [te | x];
        simpl in H; try discriminate H.
      * destruct (te <? ft).
        -- destruct (IH _ _ _ _ H) as [E | [Hin Hi]].
           ++ injection E as <-. right. split; [ left; reflexivity | exact Hidle ].
           ++ right. split; [ right; exact Hin | exact Hi ].
        -- destruct (IH _ _ _ _ H) as [E | [Hin Hi]].
           ++ left. exact E.
           ++ right. split; [ right; exact Hin | exact Hi ].
      * destruct (IH _ _ _ _ H) as [E | [Hin Hi]].
        -- injection E as <-. right. split; [ left; reflexivity | exact Hidle ].
        -- right. split; [ right; exact Hin | exact Hi ].
    + destruct (IH _ _ _ _ H) as [E | [Hin Hi]].
      * left. exact E.
      * right. split; [ right; exact Hin | exact Hi ].
Qed.

(** The loop returns only when the travel time of every idle driver on the
    list was computed. *)
Lemma scan_registry_ok_reaches (w : World) (target : Location)
    (reg : list ref) :
  forall fd ft x,
    scan_registry w target reg fd ft = Ok x ->
    forall e, In e reg -> is_idle (drivers w e) = true ->
              reaches (drivers w e) target.
Proof.
  induction reg as [ | e0 rest IH]; intros fd ft x H e He Hi; [ destruct He | ].
  simpl in H. destruct (is_idle (drivers w e0)) eqn:Hidle.
  - destruct (get_travel_time (drivers w e0) target) as [te | y] eqn:Ht.
    + destruct He as [<- | He].
      * exists te. exact Ht.
      * destruct fd as [f | ]; simpl in H.
        -- destruct (te <? ft); apply (IH _ _ _ H e He Hi).
        -- apply (IH _ _ _ H e He Hi).
    + destruct fd; simpl in H; discriminate H.
  - destruct He as [<- | He]; [ congruence | ].
    apply (IH _ _ _ H e He Hi).
Qed.

(** X6: [request_driver] never hands out a driver that is busy or unknown,
    and a match changes nothing: any driver it returns is in the registry and
    idle, and the dispatcher, the drivers and the riders are exactly as
    before the call. *)
Theorem X6_request_driver_returns_idle_registered
    (rider d : ref) (w w' : World) :
  request_driver rider w = Ok (Some d, w') ->
  In d (driver_registry w) /\ is_idle (drivers w d) = true /\ w' = w.
Proof.
  unfold request_driver.
  destruct (List.length (driver_registry w) =? 0)%nat; [ discriminate | ].
  destruct (scan_registry w (origin (riders w rider)) (driver_registry w)
              None 0) as [[[fd | ] ft] | x] eqn:Hscan; simpl;
    intros H; try discriminate H.
  injection H as -> <-.
  destruct (scan_registry_result _ _ _ _ _ _ _ Hscan) as [E | [Hin Hi]];
    [ discriminate E | ].
  repeat split; assumption.
Qed.

Lemma X6_request_driver_returns_idle_registered_witness :
  In 0%nat (driver_registry three_idle) /\
  is_idle (drivers three_idle 0%nat) = true /\ three_idle = three_idle.
Proof.
  apply (X6_request_driver_returns_idle_registered 0%nat 0%nat
           three_idle three_idle).
  reflexivity.
Defined.

(** X7: [request_driver] returns, rather than raises, exactly when the
    travel time to the rider's origin is computed for every idle registered
    driver, each of which then has a location and a non-zero speed; busy
    drivers are not looked at, whatever their state. *)
Theorem X7_request_driver_returns_iff (rider : ref) (w : World) :
  ((exists x, request_driver rider w = Ok x) <->
   (forall e, In e (driver_registry w) -> is_idle (drivers w e) = true ->
              reaches (drivers w e) (origin (riders w rider)))) /\
  ((exists x, request_driver rider w = Ok x) ->
   forall e, In e (driver_registry w) -> is_idle (drivers w e) = true ->
             location (drivers w e) <> None /\ speed (drivers w e) <> 0).
Proof.
  assert (Hnec : (exists x, request_driver rider w = Ok x) ->
                 forall e, In e (driver_registry w) ->
                           is_idle (drivers w e) = true ->
                           reaches (drivers w e) (origin (riders w rider))).
  { intros [x H] e He Hi. unfold request_driver in H.
    destruct (driver_registry w) as [ | e0 rest] eqn:Hreg; [ destruct He | ].
    cbn [List.length Nat.eqb] in H.
    destruct (scan_registry w (origin (riders w rider)) (e0 :: rest) None 0)
      as [y | y] eqn:Hscan; [ | discriminate H ].
    apply (scan_registry_ok_reaches _ _ _ _ _ _ Hscan e He Hi). }
  split; [ split; [ exact Hnec | ] | ].
  - intros Hready.
    destruct (request_driver_cases rider w Hready)
      as [[_ H] | (i & e & t & H & _)]; eexists; exact H.
  - intros Hret e He Hi. destruct (Hnec Hret e He Hi) as [t Ht].
    exact (get_travel_time_ok_ready _ _ _ Ht).
Qed.

Lemma X7_request_driver_returns_iff_witness :
  exists x, request_driver 0%nat three_idle = Ok x.
Proof.
  apply (proj2 (proj1 (X7_request_driver_returns_iff 0%nat three_idle))).
  intros e He _. simpl in He.
  destruct He as [<- | [<- | [<- | []]]]; exists 3; vm_compute; reflexivity.
Defined.

Lemma rider_in_In (r : ref) (l : list ref) : rider_in r l = true <-> In r l.
Proof.
  unfold rider_in. rewrite existsb_exists. split.
  - intros (x & Hx & E). apply Nat.eqb_eq in E. subst x. exact Hx.
  - intros H. exists r. split; [ exact H | apply Nat.eqb_refl ].
Qed.

Lemma list_remove_split (r : ref) (l : list ref) :
  In r l ->
  exists l1 l2, l = l1 ++ r :: l2 /\ ~ In r l1 /\ list_remove r l = l1 ++ l2.
Proof.
  induction l as [ | x l IH]; intros H; [ destruct H | ].
  simpl. destruct (Nat.eqb_spec x r) as [-> | Hne].
  - exists [], l. repeat split. intros [].
  - destruct H as [E | H]; [ contradiction | ].
    destruct (IH H) as (l1 & l2 & -> & Hn & ->).
    exists (x :: l1), l2. repeat split.
    intros [E | Hin]; [ contradiction | exact (Hn Hin) ].
Qed.

(** X8: [cancel_ride] takes exactly the first occurrence of the rider out of
    the waiting list and keeps everybody else in order; for a rider who is
    not waiting it is a no-op that raises nothing and returns the state as it
    was.  Nothing but the waiting list is ever changed. *)
Theorem X8_cancel_ride_first_occurrence (rider : ref) (w : World) :
  (~ In rider (waiting_list w) -> cancel_ride rider w = w) /\
  (In rider (waiting_list w) ->
   exists l1 l2,
     waiting_list w = l1 ++ rider :: l2 /\ ~ In rider l1 /\
     cancel_ride rider w = set_waiting_list w (l1 ++ l2)) /\
  (NoDup (waiting_list w) -> ~ In rider (waiting_list (cancel_ride rider w))) /\
  (forall x, In x (waiting_list (cancel_ride rider w)) ->
             In x (waiting_list w)) /\
  drivers (cancel_ride rider w) = drivers w /\
  riders (cancel_ride rider w) = riders w /\
  driver_registry (cancel_ride rider w) = driver_registry w /\
  monitor (cancel_ride rider w) = monitor w.
Proof.
  split; [ | split; [ | split; [ | split ] ] ].
  - intros Hn. unfold cancel_ride.
    destruct (rider_in rider (waiting_list w)) eqn:E; [ | reflexivity ].
    apply rider_in_In in E. contradiction.
  - intros Hin. unfold cancel_ride.
    rewrite (proj2 (rider_in_In rider _) Hin).
    destruct (list_remove_split rider _ Hin) as (l1 & l2 & E & Hn & Hr).
    exists l1, l2. rewrite Hr. repeat split; assumption.
  - intros Hnd Hin. apply rider_in_In in Hin.
    rewrite (cancel_ride_absent rider w Hnd) in Hin. discriminate Hin.
  - intros x. unfold cancel_ride.
    destruct (rider_in rider (waiting_list w)) eqn:E; [ | auto ].
    apply rider_in_In in E.
    destruct (list_remove_split rider _ E) as (l1 & l2 & Hw & _ & Hr).
    cbn [set_waiting_list waiting_list]. rewrite Hr, Hw.
    intros Hx. apply in_or_app. apply in_app_or in Hx.
    destruct Hx as [Hx | Hx]; [ left | right; right ]; exact Hx.
  - unfold cancel_ride.
    destruct (rider_in rider (waiting_list w)); repeat split.
Qed.

Lemma X8_cancel_ride_first_occurrence_witness :
  exists l1 l2,
    waiting_list two_waiting = l1 ++ 1%nat :: l2 /\ ~ In 1%nat l1 /\
    cancel_ride 1%nat two_waiting = set_waiting_list two_waiting (l1 ++ l2).
Proof.
  apply (proj1 (proj2 (X8_cancel_ride_first_occurrence 1%nat two_waiting))).
  simpl. right. left. reflexivity.
Defined.

(** X9: joining the waiting list and leaving it again is a round trip.  When
    a rider who is not yet waiting asks for a driver and finds none, a
    [cancel_ride] for that rider brings back exactly the state from before
    the request. *)
Theorem X9_wait_then_cancel_round_trip (rider : ref) (w w1 : World) :
  ~ In rider (waiting_list w) ->
  request_driver rider w = Ok (None, w1) ->
  waiting_list w1 = waiting_list w ++ [rider] /\
  cancel_ride rider w1 = w.
Proof.
  intros Hn Hreq. apply request_driver_unmatched in Hreq. subst w1.
  split; [ reflexivity | ].
  unfold cancel_ride. cbn [set_waiting_list waiting_list].
  assert (Hin : In rider (waiting_list w ++ [rider]))
    by (apply in_or_app; right; left; reflexivity).
  rewrite (proj2 (rider_in_In rider _) Hin).
  assert (Hrm : forall l, ~ In rider l -> list_remove rider (l ++ [rider]) = l).
  { induction l as [ | x l IH]; intros Hl; simpl.
    - rewrite Nat.eqb_refl. reflexivity.
    - destruct (Nat.eqb_spec x rider) as [E | _].
      + exfalso. apply Hl. left. exact E.
      + f_equal. apply IH. intros H. apply Hl. right. exact H. }
  rewrite (Hrm _ Hn). destruct w; reflexivity.
Qed.

Lemma X9_wait_then_cancel_round_trip_witness :
  waiting_list (set_waiting_list bea_busy [0%nat])
  = waiting_list bea_busy ++ [0%nat] /\
  cancel_ride 0%nat (set_waiting_list bea_busy [0%nat]) = bea_busy.
Proof.
  apply (X9_wait_then_cancel_round_trip 0%nat bea_busy
           (set_waiting_list bea_busy [0%nat])).
  - simpl. intros [].
  - reflexivity.
Defined.

(** ** event.py: what each kind of event does *)

Lemma start_drive_inv (d : Driver) (target : Location) (t : Z) (d' : Driver) :
  start_drive d target = Ok (t, d') ->
  get_travel_time d target = Ok t /\ d' = heading d target.
Proof.
  unfold start_drive, heading.
  assert (E : get_travel_time
                (mkDriver (d_id d) (location d) (speed d) false (destination d))
                target = get_travel_time d target) by reflexivity.
  rewrite E. destruct (get_travel_time d target) as [x | x]; simpl;
    intros H; [ | discriminate H ].
  injection H as -> <-. split; reflexivity.
Qed.

Lemma start_ride_inv (d : Driver) (rider : Rider) (t : Z) (d' : Driver) :
  start_ride d rider = Ok (t, d') ->
  get_travel_time d (r_destination rider) = Ok t /\
  d' = heading d (r_destination rider).
Proof.
  unfold start_ride, heading.
  assert (E : get_travel_time
                (mkDriver (d_id d) (location d) (speed d) false
                          (Some (r_destination rider)))
                (r_destination rider)
              = get_travel_time d (r_destination rider)) by reflexivity.
  simpl. rewrite E.
  destruct (get_travel_time d (r_destination rider)) as [x | x]; simpl;
    intros H; [ | discriminate H ].
  injection H as -> <-. split; reflexivity.
Qed.

Lemma driver_in_false (w : World) (d : ref) (reg : list ref) :
  driver_in w d reg = Ok false -> ~ In d reg.
Proof.
  induction reg as [ | e rest IH]; intros H; [ intros [] | ].
  simpl in H. destruct (Nat.eqb_spec e d) as [-> | Hne]; [ discriminate H | ].
  destruct (Driver_eq (drivers w e) (drivers w d)) as [[ | ] | x];
    simpl in H; try discriminate H.
  intros [E | Hin]; [ contradiction | exact (IH H Hin) ].
Qed.

Lemma driver_in_notify (w : World) (n : Notification) (d : ref)
    (reg : list ref) :
  driver_in (notify w n) d reg = driver_in w d reg.
Proof.
  induction reg as [ | e rest IH]; [ reflexivity | ].
  cbn [driver_in notify drivers]. rewrite IH. reflexivity.
Qed.

(** The outcome of a rider request: the rider joins the waiting list, or a
    registered idle driver sets out for the rider. *)
Lemma RiderRequest_do_inv (t : Z) (r : ref) (w : World)
    (evs : list Event) (w' : World) :
  RiderRequest_do t r w = Ok (evs, w') ->
  let n := mkNotification t RIDER REQUEST (r_id (riders w r))
             (Some (origin (riders w r))) in
  let c := Cancellation (t + patience (riders w r)) r in
  (evs = [c] /\
   world_is w' (drivers w) (riders w) (waiting_list w ++ [r])
            (driver_registry w) (monitor w ++ [n]))
  \/
  (exists d tt,
      In d (driver_registry w) /\ is_idle (drivers w d) = true /\
      get_travel_time (drivers w d) (origin (riders w r)) = Ok tt /\
      evs = [Pickup (t + tt) r d; c] /\
      world_is w' (upd (drivers w) d (heading (drivers w d)
                                        (origin (riders w r))))
               (riders w) (waiting_list w) (driver_registry w)
               (monitor w ++ [n])).
Proof.
  unfold RiderRequest_do. rewrite request_driver_notify.
  destruct (request_driver r w) as [[[d | ] w2] | x] eqn:Hreq;
    cbn [bind]; intros H; try discriminate H.
  - assert (Hd : In d (driver_registry w) /\
                 is_idle (drivers w d) = true /\ w2 = w).
    { unfold request_driver in Hreq.
      destruct (List.length (driver_registry w) =? 0)%nat;
        [ discriminate Hreq | ].
      destruct (scan_registry w (origin (riders w r)) (driver_registry w)
                  None 0) as [[[fd | ] ft] | y] eqn:Hscan; simpl in Hreq;
        try discriminate Hreq.
      injection Hreq as -> <-.
      destruct (scan_registry_result _ _ _ _ _ _ _ Hscan) as [E | [Hin Hi]];
        [ discriminate E | ].
      repeat split; assumption. }
    destruct Hd as (Hin & Hi & ->).
    cbn [notify drivers riders] in H.
    destruct (start_drive (drivers w d) (origin (riders w r)))
      as [[tt d'] | y] eqn:Hsd; cbn [bind] in H; [ | discriminate H ].
    apply start_drive_inv in Hsd. destruct Hsd as [Htt ->].
    injection H as <- <-. right. exists d, tt.
    repeat split; assumption.
  - apply request_driver_unmatched in Hreq. subst w2.
    injection H as <- <-. left. repeat split.
Qed.

(** The outcome of a driver request: the driver is registered if it was not
    known, and sets out for the rider at the head of the waiting list if
    there is one. *)
Lemma DriverRequest_do_inv (t : Z) (d : ref) (w : World)
    (evs : list Event) (w' : World) :
  DriverRequest_do t d w = Ok (evs, w') ->
  let n := mkNotification t DRIVER REQUEST (d_id (drivers w d))
             (location (drivers w d)) in
  exists reg,
    ((reg = driver_registry w /\
      driver_in w d (driver_registry w) = Ok true) \/
     (reg = driver_registry w ++ [d] /\ ~ In d (driver_registry w))) /\
    ((waiting_list w = [] /\ evs = [] /\
      world_is w' (drivers w) (riders w) [] reg (monitor w ++ [n]))
     \/
     (exists h rest tt,
         waiting_list w = h :: rest /\
         get_travel_time (drivers w d) (origin (riders w h)) = Ok tt /\
         evs = [Pickup (t + tt) h d] /\
         world_is w' (upd (drivers w) d (heading (drivers w d)
                                           (origin (riders w h))))
                  (riders w) rest reg (monitor w ++ [n]))).
Proof.
  unfold DriverRequest_do, request_rider.
  cbn [notify driver_registry]. rewrite driver_in_notify.
  destruct (driver_in w d (driver_registry w)) as [known | x] eqn:Hk;
    cbn [bind]; [ | discriminate ].
  intros H.
  exists (if known then driver_registry w else driver_registry w ++ [d]).
  split.
  { destruct known; [ left; split; reflexivity | right ].
    split; [ reflexivity | apply (driver_in_false _ _ _ Hk) ]. }
  destruct known; cbn [negb] in H;
    cbn [set_driver_registry notify waiting_list] in H;
    destruct (waiting_list w) as [ | h rest] eqn:Hwl; cbn [bind] in H.
  - injection H as <- <-. left. repeat split; exact Hwl.
  - cbn [set_waiting_list set_driver_registry notify drivers riders] in H.
    destruct (start_drive (drivers w d) (origin (riders w h)))
      as [[tt d'] | y] eqn:Hsd; cbn [bind] in H; [ | discriminate H ].
    apply start_drive_inv in Hsd. destruct Hsd as [Htt ->].
    injection H as <- <-. right. exists h, rest, tt.
    repeat split; try assumption; reflexivity.
  - injection H as <- <-. left. repeat split; exact Hwl.
  - cbn [set_waiting_list set_driver_registry notify drivers riders] in H.
    destruct (start_drive (drivers w d) (origin (riders w h)))
      as [[tt d'] | y] eqn:Hsd; cbn [bind] in H; [ | discriminate H ].
    apply start_drive_inv in Hsd. destruct Hsd as [Htt ->].
    injection H as <- <-. right. exists h, rest, tt.
    repeat split; try assumption; reflexivity.
Qed.

(** The outcome of a pickup, by the status of the rider. *)
Lemma Pickup_do_inv (t : Z) (r d : ref) (w : World)
    (evs : list Event) (w' : World) :
  Pickup_do t r d w = Ok (evs, w') ->
  let d1 := arrived (drivers w d) in
  (status (riders w r) = WAITING /\
   exists tt,
     get_travel_time d1 (r_destination (riders w r)) = Ok tt /\
     evs = [Dropoff (t + tt) r d] /\
     world_is w'
       (upd (upd (drivers w) d d1) d
            (heading d1 (r_destination (riders w r))))
       (upd (riders w) r (set_status (riders w r) SATISFIED))
       (waiting_list w) (driver_registry w)
       ((monitor w
         ++ [mkNotification t RIDER PICKUP (r_id (riders w r))
               (Some (origin (riders w r)))])
         ++ [mkNotification t DRIVER PICKUP (d_id d1) (location d1)]))
  \/
  (status (riders w r) = CANCELLED /\ evs = [DriverRequest t d] /\
   world_is w' (upd (drivers w) d d1) (riders w) (waiting_list w)
            (driver_registry w) (monitor w))
  \/
  (status (riders w r) = SATISFIED /\ evs = [] /\
   world_is w' (upd (drivers w) d d1) (riders w) (waiting_list w)
            (driver_registry w) (monitor w)).
Proof.
  unfold Pickup_do, end_drive. cbn [bind set_driver riders].
  destruct (status (riders w r)) eqn:Hst; cbn [Status_eqb]; intros H.
  - left. split; [ reflexivity | ].
    cbn [notify set_driver drivers riders] in H.
    assert (Hd : upd (drivers w) d (arrived (drivers w d)) d
                 = arrived (drivers w d))
      by (unfold upd; rewrite Nat.eqb_refl; reflexivity).
    unfold arrived in Hd. cbn [d_id location speed is_idle destination] in H.
    rewrite Hd in H.
    destruct (start_ride _ (riders w r)) as [[tt d2] | y] eqn:Hsr;
      cbn [bind] in H; [ | discriminate H ].
    apply start_ride_inv in Hsr. destruct Hsr as [Htt ->].
    injection H as <- <-. exists tt.
    split; [ exact Htt | split; [ reflexivity | ] ].
    repeat split.
  - right. left. injection H as <- <-. repeat split.
  - right. right. injection H as <- <-. repeat split.
Qed.

(** The outcome of a cancellation: nothing for a Satisfied rider, otherwise
    the rider is taken off the waiting list and marked Cancelled. *)
Lemma Cancellation_do_inv (t : Z) (r : ref) (w : World)
    (evs : list Event) (w' : World) :
  Cancellation_do t r w = Ok (evs, w') ->
  evs = [] /\
  ((status (riders w r) = SATISFIED /\ w' = w) \/
   (status (riders w r) <> SATISFIED /\
    world_is w' (drivers w)
             (upd (riders w) r (set_status (riders w r) CANCELLED))
             (waiting_list (cancel_ride r w)) (driver_registry w)
             (monitor w
              ++ [mkNotification t RIDER CANCEL (r_id (riders w r))
                    (Some (origin (riders w r)))]))).
Proof.
  intros H.
  destruct (Cancellation_do_cases t r w) as [[Hs E] | [Hs E]];
    rewrite E in H; injection H as <- <-; (split; [ reflexivity | ]).
  - left. split; [ exact Hs | reflexivity ].
  - right. split; [ exact Hs | ].
    destruct (cancelled_state t r w) as (A & B & C & D).
    repeat split; try assumption.
    unfold cancelled. cbn [notify monitor set_rider riders].
    destruct (cancel_ride_frame r w) as (Hr & _ & _).
    rewrite Hr. unfold upd. rewrite Nat.eqb_refl. cbn [set_status r_id origin].
    unfold cancel_ride. destruct (rider_in r (waiting_list w)); reflexivity.
Qed.

(** The outcome of a dropoff: the driver has arrived and asks again. *)
Lemma Dropoff_do_inv (t : Z) (r d : ref) (w : World)
    (evs : list Event) (w' : World) :
  Dropoff_do t r d w = Ok (evs, w') ->
  evs = [DriverRequest t d] /\
  world_is w' (upd (drivers w) d (arrived (drivers w d))) (riders w)
           (waiting_list w) (driver_registry w)
           (monitor w
            ++ [mkNotification t DRIVER DROPOFF (d_id (drivers w d))
                  (destination (drivers w d))]).
Proof.
  unfold Dropoff_do, end_ride. cbn [bind]. intros H.
  injection H as <- <-. split; [ reflexivity | ].
  repeat split. cbn [notify monitor set_driver drivers].
  unfold upd. rewrite Nat.eqb_refl. reflexivity.
Qed.

(** X10: a driver request, for a driver that can be compared with the
    registered ones and whose travel time to the origin of the rider at the
    head of the waiting list, if somebody waits, is computed, returns; the
    driver is known to the registry afterwards; with nobody waiting no event
    is returned and no driver changes; otherwise the one event returned is a
    Pickup of the rider at the head of the waiting list, at the time of the
    request plus the travel time to that rider's origin, the rider leaves the
    waiting list and the driver is on its way there.  No rider is changed. *)
Theorem X10_driver_request_events (t : Z) (d : ref) (w : World) :
  comparable w d (driver_registry w) ->
  (forall h rest, waiting_list w = h :: rest ->
                  reaches (drivers w d) (origin (riders w h))) ->
  exists evs w',
    do (DriverRequest t d) w = Ok (evs, w') /\
    (exists e, In e (driver_registry w') /\
               (e = d \/ same_record (drivers w e) (drivers w d))) /\
    (waiting_list w = [] ->
     evs = [] /\ waiting_list w' = [] /\ drivers w' = drivers w) /\
    (forall h rest,
        waiting_list w = h :: rest ->
        exists tt,
          get_travel_time (drivers w d) (origin (riders w h)) = Ok tt /\
          evs = [Pickup (t + tt) h d] /\
          waiting_list w' = rest /\
          drivers w' d = heading (drivers w d) (origin (riders w h))) /\
    riders w' = riders w.
Proof.
  intros Hc Hready.
  destruct (driver_in_spec w d (driver_registry w) Hc) as (known & Hk & Hiff).
  assert (Hex : exists evs w', DriverRequest_do t d w = Ok (evs, w')).
  { unfold DriverRequest_do, request_rider.
    cbn [notify driver_registry]. rewrite driver_in_notify, Hk. cbn [bind].
    destruct known; cbn [negb];
      cbn [set_driver_registry notify waiting_list];
      destruct (waiting_list w) as [ | h rest]; cbn [bind];
      try (eexists; eexists; reflexivity);
      cbn [set_waiting_list set_driver_registry notify drivers riders];
      destruct (Hready h rest eq_refl) as [tt Htt];
      rewrite (start_drive_ok _ _ _ Htt); cbn [bind];
      eexists; eexists; reflexivity. }
  destruct Hex as (evs & w' & Hdo). exists evs, w'.
  split; [ exact Hdo | ].
  apply DriverRequest_do_inv in Hdo. cbv zeta in Hdo.
  destruct Hdo as (reg & Hreg & Hcases).
  assert (Hknown : exists e, In e reg /\
                     (e = d \/ same_record (drivers w e) (drivers w d))).
  { destruct Hreg as [[-> Hk'] | [-> Hnin]].
    - rewrite Hk in Hk'. injection Hk' as ->. apply Hiff. reflexivity.
    - exists d. split; [ apply in_or_app; right; left | left ]; reflexivity. }
  destruct Hcases as [(Hwl & -> & Hw) | (h & rest & tt & Hwl & Htt & -> & Hw)];
    destruct Hw as (Hd & Hr & Hl & Hg & _).
  - split; [ rewrite Hg; exact Hknown | ].
    split; [ intros _; repeat split; assumption | ].
    split; [ intros h rest E; rewrite Hwl in E; discriminate E | exact Hr ].
  - split; [ rewrite Hg; exact Hknown | ].
    split; [ intros E; rewrite Hwl in E; discriminate E | ].
    split; [ | exact Hr ].
    intros h' rest' E. rewrite Hwl in E. injection E as <- <-.
    exists tt. repeat split; try assumption.
    rewrite Hd. unfold upd. rewrite Nat.eqb_refl. reflexivity.
Qed.

Lemma X10_driver_request_events_witness :
  exists evs w',
    do (DriverRequest 4 0) two_waiting = Ok (evs, w') /\
    (exists e, In e (driver_registry w') /\
               (e = 0%nat \/
                same_record (drivers two_waiting e) (drivers two_waiting 0%nat))) /\
    (waiting_list two_waiting = [] ->
     evs = [] /\ waiting_list w' = [] /\ drivers w' = drivers two_waiting) /\
    (forall h rest,
        waiting_list two_waiting = h :: rest ->
        exists tt,
          get_travel_time (drivers two_waiting 0%nat)
            (origin (riders two_waiting h)) = Ok tt /\
          evs = [Pickup (4 + tt) h 0] /\
          waiting_list w' = rest /\
          drivers w' 0%nat
          = heading (drivers two_waiting 0%nat)
                    (origin (riders two_waiting h))) /\
    riders w' = riders two_waiting.
Proof.
  apply (X10_driver_request_events 4 0%nat two_waiting).
  - intros e He Hne. simpl in He.
    destruct He as [<- | [<- | [<- | []]]];
      [ contradiction | eexists; reflexivity | eexists; reflexivity ].
  - intros h rest E. injection E as <- _. exists 3. vm_compute. reflexivity.
Defined.

(** amy asks at time 4 with ann and bob waiting: a Pickup of ann, three
    units away, at time 7, and bob stays behind. *)
Example driver_request_takes_head :
  exists w', do (DriverRequest 4 0) two_waiting = Ok ([Pickup 7 0 0], w') /\
             waiting_list w' = [1%nat].
Proof. eexists. split; reflexivity. Qed.

(** X11: a pickup by the status of the rider, for a driver that is on its
    way to some place [here] and, when the rider is Waiting, whose travel
    time from [here] to the rider's destination is computed.  The driver
    arrives at [here] in every case.  For a Waiting rider the ride starts: the one
    event returned is a Dropoff at the time of the pickup plus the travel
    time from [here] to the rider's destination, the rider is Satisfied, and
    executing that Dropoff leaves the driver idle at the rider's destination
    and returns a driver request at the same time.  For a Cancelled rider the
    driver is idle and a driver request at the time of the pickup is
    returned.  For a rider already Satisfied nothing is returned: the driver
    is left idle and is not sent back to the dispatcher. *)
Theorem X11_pickup_by_status (t : Z) (r d : ref) (w : World) (here : Location) :
  destination (drivers w d) = Some here ->
  (status (riders w r) = WAITING ->
   reaches (arrived (drivers w d)) (r_destination (riders w r))) ->
  exists evs w1,
    do (Pickup t r d) w = Ok (evs, w1) /\
    location (drivers w1 d) = Some here /\
    waiting_list w1 = waiting_list w /\
    driver_registry w1 = driver_registry w /\
    (status (riders w r) = WAITING ->
     exists tt w2,
       round_div (manhattan_distance here (r_destination (riders w r)))
                 (speed (drivers w d)) = Ok tt /\
       evs = [Dropoff (t + tt) r d] /\
       status (riders w1 r) = SATISFIED /\
       is_idle (drivers w1 d) = false /\
       destination (drivers w1 d) = Some (r_destination (riders w r)) /\
       do (Dropoff (t + tt) r d) w1 = Ok ([DriverRequest (t + tt) d], w2) /\
       drivers w2 d
       = mkDriver (d_id (drivers w d)) (Some (r_destination (riders w r)))
                  (speed (drivers w d)) true None /\
       status (riders w2 r) = SATISFIED) /\
    (status (riders w r) = CANCELLED ->
     evs = [DriverRequest t d] /\ is_idle (drivers w1 d) = true /\
     riders w1 = riders w) /\
    (status (riders w r) = SATISFIED ->
     evs = [] /\ is_idle (drivers w1 d) = true /\ riders w1 = riders w).
Proof.
  intros Hdest Hreach.
  assert (Hup : forall (f : ref -> Driver) v, upd f d v d = v)
    by (intros f v; unfold upd; rewrite Nat.eqb_refl; reflexivity).
  assert (Hex : exists evs w1, Pickup_do t r d w = Ok (evs, w1)).
  { unfold Pickup_do, end_drive. cbn [bind set_driver riders].
    destruct (status (riders w r)) eqn:Hs0; cbn [Status_eqb];
      try (eexists; eexists; reflexivity).
    destruct (Hreach eq_refl) as [tt Hgt].
    cbn [notify set_driver drivers riders].
    cbn [d_id location speed is_idle destination].
    eexists. eexists. rewrite !Hup. fold (arrived (drivers w d)).
    rewrite start_ride_eq, Hgt. cbn [bind]. reflexivity. }
  destruct Hex as (evs & w1 & Hdo). exists evs, w1.
  split; [ exact Hdo | ].
  apply Pickup_do_inv in Hdo. cbv zeta in Hdo.
  destruct Hdo as [(Hs & tt & Hgt & -> & Hw) | [(Hs & -> & Hw) | (Hs & -> & Hw)]];
    destruct Hw as (Hd & Hr & Hl & Hg & Hm).
  - assert (Htt : round_div
                    (manhattan_distance here (r_destination (riders w r)))
                    (speed (drivers w d)) = Ok tt).
    { unfold get_travel_time, arrived in Hgt. cbn [location speed] in Hgt.
      rewrite Hdest in Hgt. exact Hgt. }
    rewrite Hd, Hup. cbn [heading arrived location].
    split; [ exact Hdest | split; [ exact Hl | split; [ exact Hg | ] ] ].
    split; [ | split; intros E; rewrite Hs in E; discriminate E ].
    intros _.
    assert (Hex2 : exists w2, Dropoff_do (t + tt) r d w1
                              = Ok ([DriverRequest (t + tt) d], w2))
      by (unfold Dropoff_do, end_ride; cbn [bind]; eexists; reflexivity).
    destruct Hex2 as (w2 & Hdo2). exists tt, w2.
    split; [ exact Htt | split; [ reflexivity | ] ].
    split; [ rewrite Hr; unfold upd; rewrite Nat.eqb_refl; reflexivity | ].
    split; [ reflexivity | ].
    split; [ reflexivity | ].
    split; [ exact Hdo2 | ].
    apply Dropoff_do_inv in Hdo2. destruct Hdo2 as (_ & Hd2 & Hr2 & _).
    split.
    + rewrite Hd2. unfold upd at 1. rewrite Nat.eqb_refl.
      rewrite Hd, Hup. unfold arrived, heading. cbn. reflexivity.
    + rewrite Hr2, Hr. unfold upd. rewrite Nat.eqb_refl. reflexivity.
  - rewrite Hd, Hup. cbn [arrived location is_idle].
    split; [ exact Hdest | split; [ exact Hl | split; [ exact Hg | ] ] ].
    split; [ intros E; rewrite Hs in E; discriminate E | ].
    split; [ | intros E; rewrite Hs in E; discriminate E ].
    intros _. repeat split. exact Hr.
  - rewrite Hd, Hup. cbn [arrived location is_idle].
    split; [ exact Hdest | split; [ exact Hl | split; [ exact Hg | ] ] ].
    split; [ intros E; rewrite Hs in E; discriminate E | ].
    split; [ intros E; rewrite Hs in E; discriminate E | ].
    intros _. repeat split. exact Hr.
Qed.

Lemma X11_pickup_by_status_witness :
  exists evs w1,
    do (Pickup 3 0 1) bea_busy = Ok (evs, w1) /\
    location (drivers w1 1%nat) = Some (mkLocation 0 9) /\
    (status (riders bea_busy 0%nat) = WAITING ->
     exists tt, evs = [Dropoff (3 + tt) 0 1]).
Proof.
  destruct (X11_pickup_by_status 3 0%nat 1%nat bea_busy (mkLocation 0 9))
    as (evs & w1 & Hdo & Hloc & _ & _ & Hwait & _).
  - reflexivity.
  - intros _. exists 1. vm_compute. reflexivity.
  - exists evs, w1. split; [ exact Hdo | split; [ exact Hloc | ] ].
    intros Hs. destruct (Hwait Hs) as (tt & w2 & _ & Hevs & _).
    exists tt. exact Hevs.
Defined.

(** bea arrives at (0,9) at time 3 and takes ann, who is still waiting, to
    (0,10), one unit away. *)
Example pickup_waiting_rider :
  exists w1, do (Pickup 3 0 1) bea_busy = Ok ([Dropoff 4 0 1], w1) /\
             status (riders w1 0%nat) = SATISFIED.
Proof. eexists. split; reflexivity. Qed.

(** ** Invariants of a run *)

(** What one event may do to each component of the state. *)
Lemma do_components (e : Event) (w w' : World) (evs : list Event) :
  do e w = Ok (evs, w') ->
  (forall x,
      drivers w' x = drivers w x \/
      (exists target, drivers w' x = heading (drivers w x) target) \/
      drivers w' x = arrived (drivers w x) \/
      (exists target, drivers w' x = heading (arrived (drivers w x)) target)) /\
  (forall x,
      riders w' x = riders w x \/
      (exists st, riders w' x = set_status (riders w x) st)) /\
  (driver_registry w' = driver_registry w \/
   (exists t d, e = DriverRequest t d /\ ~ In d (driver_registry w) /\
                driver_registry w' = driver_registry w ++ [d])) /\
  (waiting_list w' = waiting_list w \/
   (exists t r, e = RiderRequest t r /\
                waiting_list w' = waiting_list w ++ [r]) \/
   (exists h, waiting_list w = h :: waiting_list w') \/
   (exists r, waiting_list w' = waiting_list (cancel_ride r w))).
Proof.
  assert (Hu : forall (f : ref -> Driver) d v x,
             upd f d v x = f x \/ (x = d /\ upd f d v x = v)).
  { intros f d v x. unfold upd.
    destruct (Nat.eqb_spec x d) as [-> | _]; [ right | left ]; auto. }
  assert (Hr : forall (f : ref -> Rider) d v x,
             upd f d v x = f x \/ (x = d /\ upd f d v x = v)).
  { intros f d v x. unfold upd.
    destruct (Nat.eqb_spec x d) as [-> | _]; [ right | left ]; auto. }
  destruct e as [t r | t d | t r | t r d | t r d]; cbn [do]; intros H.
  - apply RiderRequest_do_inv in H. cbv zeta in H.
    destruct H as [[_ Hw] | (d & tt & _ & _ & _ & _ & Hw)];
      destruct Hw as (Hd & Hri & Hl & Hg & _);
      rewrite Hd, Hri, Hl, Hg.
    + repeat split; auto. right. left. exists t, r. auto.
    + split; [ | repeat split; auto ].
      intros x. destruct (Hu (drivers w) d
                            (heading (drivers w d) (origin (riders w r))) x)
        as [E | [-> E]]; rewrite E; [ left; reflexivity | ].
      right. left. eexists. reflexivity.
  - apply DriverRequest_do_inv in H. cbv zeta in H.
    destruct H as (reg & Hreg & Hcases).
    assert (Hregs : reg = driver_registry w \/
                    (exists t0 d0, DriverRequest t d = DriverRequest t0 d0 /\
                                   ~ In d0 (driver_registry w) /\
                                   reg = driver_registry w ++ [d0])).
    { destruct Hreg as [[-> _] | [-> Hn]]; [ left; reflexivity | right ].
      exists t, d. auto. }
    destruct Hcases as [(Hwl & _ & Hw) | (h & rest & tt & Hwl & _ & _ & Hw)];
      destruct Hw as (Hd & Hri & Hl & Hg & _);
      rewrite Hd, Hri, Hl, Hg.
    + repeat split; auto; left; symmetry; exact Hwl.
    + split; [ | split; [ auto | split; [ exact Hregs | ] ] ].
      * intros x. destruct (Hu (drivers w) d
                              (heading (drivers w d) (origin (riders w h))) x)
          as [E | [-> E]]; rewrite E; [ left; reflexivity | ].
        right. left. eexists. reflexivity.
      * right. right. left. exists h. exact Hwl.
  - apply Cancellation_do_inv in H.
    destruct H as (_ & [[_ ->] | [_ Hw]]); [ repeat split; auto | ].
    destruct Hw as (Hd & Hri & Hl & Hg & _). rewrite Hd, Hri, Hl, Hg.
    split; [ auto | split; [ | split; [ auto | ] ] ].
    + intros x. destruct (Hr (riders w) r
                            (set_status (riders w r) CANCELLED) x)
        as [E | [-> E]]; rewrite E; [ left; reflexivity | ].
      right. eexists. reflexivity.
    + right. right. right. exists r. reflexivity.
  - apply Pickup_do_inv in H. cbv zeta in H.
    destruct H as [(_ & tt & _ & _ & Hw) | [(_ & _ & Hw) | (_ & _ & Hw)]];
      destruct Hw as (Hd & Hri & Hl & Hg & _); rewrite Hd, Hri, Hl, Hg.
    + split; [ | split; [ | auto ] ].
      * intros x.
        destruct (Hu (upd (drivers w) d (arrived (drivers w d))) d
                    (heading (arrived (drivers w d))
                             (r_destination (riders w r))) x)
          as [E | [-> E]]; rewrite E.
        -- destruct (Hu (drivers w) d (arrived (drivers w d)) x)
             as [E' | [-> E']]; rewrite E'; auto.
        -- right. right. right. eexists. reflexivity.
      * intros x. destruct (Hr (riders w) r
                              (set_status (riders w r) SATISFIED) x)
          as [E | [-> E]]; rewrite E; [ left; reflexivity | ].
        right. eexists. reflexivity.
    + split; [ | auto ].
      intros x. destruct (Hu (drivers w) d (arrived (drivers w d)) x)
        as [E | [-> E]]; rewrite E; auto.
    + split; [ | auto ].
      intros x. destruct (Hu (drivers w) d (arrived (drivers w d)) x)
        as [E | [-> E]]; rewrite E; auto.
  - apply Dropoff_do_inv in H.
    destruct H as (_ & Hd & Hri & Hl & Hg & _). rewrite Hd, Hri, Hl, Hg.
    split; [ | auto ].
    intros x. destruct (Hu (drivers w) d (arrived (drivers w d)) x)
      as [E | [-> E]]; rewrite E; auto.
Qed.

Lemma list_remove_incl (r x : ref) (l : list ref) :
  In x (list_remove r l) -> In x l.
Proof.
  induction l as [ | y l IH]; simpl; [ auto | ].
  destruct (Nat.eqb y r); simpl; [ auto | ].
  intros [E | H]; [ left; exact E | right; exact (IH H) ].
Qed.

Lemma NoDup_list_remove (r : ref) (l : list ref) :
  NoDup l -> NoDup (list_remove r l).
Proof.
  induction 1 as [ | y l Hy Hnd IH]; simpl; [ constructor | ].
  destruct (Nat.eqb y r); [ exact Hnd | ].
  constructor; [ | exact IH ].
  intros H. apply Hy. exact (list_remove_incl _ _ _ H).
Qed.

(** X12: no event ever changes who somebody is.  Along every execution of
    events each rider keeps its identifier, origin, destination and patience,
    and each driver keeps its identifier and speed; only the status of a
    rider and the location, destination and idle flag of a driver move. *)
Theorem X12_identities_are_kept (w w' : World) :
  reach w w' ->
  (forall r,
      r_id (riders w' r) = r_id (riders w r) /\
      origin (riders w' r) = origin (riders w r) /\
      r_destination (riders w' r) = r_destination (riders w r) /\
      patience (riders w' r) = patience (riders w r)) /\
  (forall d,
      d_id (drivers w' d) = d_id (drivers w d) /\
      speed (drivers w' d) = speed (drivers w d)).
Proof.
  induction 1 as [w | w w1 w2 e evs Hdo _ [IHr IHd]].
  - split; intros; repeat split.
  - destruct (do_components e w w1 evs Hdo) as (Hd & Hr & _).
    split.
    + intros r. destruct (IHr r) as (A & B & C & D).
      rewrite A, B, C, D.
      destruct (Hr r) as [E | [st E]]; rewrite E; repeat split.
    + intros d. destruct (IHd d) as (A & B). rewrite A, B.
      destruct (Hd d) as [E | [[tg E] | [E | [tg E]]]]; rewrite E;
        split; reflexivity.
Qed.

Lemma X12_identities_are_kept_witness :
  r_id (riders ann_cancelled 0%nat) = r_id (riders three_idle 0%nat) /\
  d_id (drivers ann_cancelled 0%nat) = d_id (drivers three_idle 0%nat).
Proof.
  assert (Hreach : reach three_idle ann_cancelled).
  { apply (reach_step three_idle ann_cancelled ann_cancelled
             (Cancellation 20 0) []); [ reflexivity | apply reach_refl ]. }
  destruct (X12_identities_are_kept three_idle ann_cancelled Hreach)
    as [Hr Hd].
  split; [ exact (proj1 (Hr 0%nat)) | exact (proj1 (Hd 0%nat)) ].
Defined.

(** X13: the invariant of a driver, a destination exactly when not idle, is
    an invariant of the whole run: if every driver satisfies it, every driver
    satisfies it after any execution of events. *)
Theorem X13_driver_invariant_of_a_run (w w' : World) :
  (forall d, driver_inv (drivers w d)) ->
  reach w w' ->
  forall d, driver_inv (drivers w' d).
Proof.
  intros Hinv Hreach. induction Hreach as [w | w w1 w2 e evs Hdo _ IH];
    [ exact Hinv | ].
  apply IH. intros d.
  destruct (do_components e w w1 evs Hdo) as (Hd & _).
  destruct (Hd d) as [E | [[tg E] | [E | [tg E]]]]; rewrite E;
    try apply Hinv; split; simpl; intros; congruence.
Qed.

Lemma X13_driver_invariant_of_a_run_witness :
  driver_inv (drivers ann_cancelled 0%nat).
Proof.
  apply (X13_driver_invariant_of_a_run three_idle ann_cancelled).
  - intros d. split; intros H.
    + exfalso. apply H.
      destruct d as [ | [ | [ | d]]]; reflexivity.
    + destruct d as [ | [ | [ | d]]]; discriminate H.
  - apply (reach_step three_idle ann_cancelled ann_cancelled
             (Cancellation 20 0) []); [ reflexivity | apply reach_refl ].
Defined.

(** X14: the registry only grows, at its tail, and never holds the same
    driver object twice: after any execution of events the old registry is a
    prefix of the new one, and a registry without repetition stays so. *)
Theorem X14_registry_grows (w w' : World) :
  reach w w' ->
  (exists added, driver_registry w' = driver_registry w ++ added) /\
  (NoDup (driver_registry w) -> NoDup (driver_registry w')).
Proof.
  induction 1 as [w | w w1 w2 e evs Hdo _ [[added IHa] IHn]].
  - split; [ exists []; rewrite app_nil_r; reflexivity | auto ].
  - destruct (do_components e w w1 evs Hdo) as (_ & _ & Hg & _).
    destruct Hg as [E | (t & d & _ & Hn & E)]; rewrite E in IHa, IHn.
    + split; [ exists added; exact IHa | exact IHn ].
    + split.
      * exists (d :: added). rewrite IHa, <- app_assoc. reflexivity.
      * intros Hnd. apply IHn. apply NoDup_snoc; assumption.
Qed.

Lemma X14_registry_grows_witness :
  (exists added,
      driver_registry ann_cancelled = driver_registry three_idle ++ added) /\
  (NoDup (driver_registry three_idle) ->
   NoDup (driver_registry ann_cancelled)).
Proof.
  apply (X14_registry_grows three_idle ann_cancelled).
  apply (reach_step three_idle ann_cancelled ann_cancelled
           (Cancellation 20 0) []); [ reflexivity | apply reach_refl ].
Defined.

(** X15: the waiting list holds nobody twice, as long as no rider who is
    already waiting asks again: an event executed on a waiting list without
    repetition leaves one without repetition, and whoever waits afterwards
    waited before or is the rider of the rider request just executed. *)
Theorem X15_waiting_list_without_repetition
    (e : Event) (w w' : World) (evs : list Event) :
  do e w = Ok (evs, w') ->
  NoDup (waiting_list w) ->
  (forall t r, e = RiderRequest t r -> ~ In r (waiting_list w)) ->
  NoDup (waiting_list w') /\
  (forall x, In x (waiting_list w') ->
             In x (waiting_list w) \/ exists t, e = RiderRequest t x).
Proof.
  intros Hdo Hnd Hnew.
  destruct (do_components e w w' evs Hdo) as (_ & _ & _ & Hl).
  destruct Hl as [E | [(t & r & He & E) | [(h & E) | (r & E)]]].
  - rewrite E. split; [ exact Hnd | auto ].
  - rewrite E. split.
    + apply NoDup_snoc; [ exact Hnd | exact (Hnew t r He) ].
    + intros x Hx. apply in_app_or in Hx.
      destruct Hx as [Hx | [<- | []]]; [ left; exact Hx | right ].
      exists t. exact He.
  - rewrite E in Hnd |- *. apply NoDup_cons_iff in Hnd. split.
    + exact (proj2 Hnd).
    + intros x Hx. left. right. exact Hx.
  - rewrite E. unfold cancel_ride.
    destruct (rider_in r (waiting_list w)); cbn [set_waiting_list waiting_list].
    + split; [ apply NoDup_list_remove; exact Hnd | ].
      intros x Hx. left. exact (list_remove_incl _ _ _ Hx).
    + split; [ exact Hnd | auto ].
Qed.

Lemma X15_waiting_list_without_repetition_witness :
  NoDup [0%nat] /\
  (forall x, In x [0%nat] ->
             In x (waiting_list bea_busy) \/
             exists t, RiderRequest 0 0 = RiderRequest t x).
Proof.
  apply (X15_waiting_list_without_repetition (RiderRequest 0 0) bea_busy
           (mkWorld (drivers bea_busy) sample_riders [0%nat] [1%nat]
              [mkNotification 0 RIDER REQUEST "ann" (Some (mkLocation 0 3))])
           [Cancellation 20 0]).
  - reflexivity.
  - simpl. constructor.
  - intros t r _. simpl. intros [].
Defined.

(** ** Time and termination *)

Lemma get_travel_time_nonneg (d : Driver) (target : Location) (t : Z) :
  0 < speed d -> get_travel_time d target = Ok t -> 0 <= t.
Proof.
  intros Hs. unfold get_travel_time.
  destruct (location d) as [loc | ]; [ | discriminate ].
  apply round_div_nonneg; [ apply manhattan_distance_nonneg | exact Hs ].
Qed.

(** X16: no event is scheduled in the past.  When every patience is
    non-negative and every speed positive, as the data model asks, each event
    returned by the execution of an event carries a timestamp that is not
    smaller than the timestamp of the event executed. *)
Theorem X16_no_event_in_the_past
    (e : Event) (w w' : World) (evs : list Event) :
  (forall r, 0 <= patience (riders w r)) ->
  (forall d, 0 < speed (drivers w d)) ->
  do e w = Ok (evs, w') ->
  forall e', In e' evs -> timestamp e <= timestamp e'.
Proof.
  intros Hp Hs Hdo e' He'.
  destruct e as [t r | t d | t r | t r d | t r d]; cbn [do] in Hdo;
    cbn [timestamp].
  - apply RiderRequest_do_inv in Hdo. cbv zeta in Hdo.
    destruct Hdo as [[-> _] | (d & tt & _ & _ & Htt & -> & _)].
    + destruct He' as [<- | []]. cbn [timestamp]. specialize (Hp r). lia.
    + apply get_travel_time_nonneg in Htt; [ | apply Hs ].
      destruct He' as [<- | [<- | []]]; cbn [timestamp];
        [ lia | specialize (Hp r); lia ].
  - apply DriverRequest_do_inv in Hdo. cbv zeta in Hdo.
    destruct Hdo as (reg & _ & [(_ & -> & _) | (h & rest & tt & _ & Htt & -> & _)]).
    + destruct He'.
    + apply get_travel_time_nonneg in Htt; [ | apply Hs ].
      destruct He' as [<- | []]. cbn [timestamp]. lia.
  - apply Cancellation_do_inv in Hdo. destruct Hdo as [-> _]. destruct He'.
  - apply Pickup_do_inv in Hdo. cbv zeta in Hdo.
    destruct Hdo as [(_ & tt & Htt & -> & _) | [(_ & -> & _) | (_ & -> & _)]].
    + apply get_travel_time_nonneg in Htt; [ | apply Hs ].
      destruct He' as [<- | []]. cbn [timestamp]. lia.
    + destruct He' as [<- | []]. cbn [timestamp]. lia.
    + destruct He'.
  - apply Dropoff_do_inv in Hdo. destruct Hdo as [-> _].
    destruct He' as [<- | []]. cbn [timestamp]. lia.
Qed.

Lemma X16_no_event_in_the_past_witness :
  timestamp (RiderRequest 0 0) <= timestamp (Pickup 3 0 0) /\
  timestamp (RiderRequest 0 0) <= timestamp (Cancellation 20 0).
Proof.
  assert (Hp : forall r, 0 <= patience (riders three_idle r))
    by (intros [ | r]; simpl; lia).
  assert (Hs : forall d, 0 < speed (drivers three_idle d))
    by (intros [ | [ | [ | d]]]; simpl; lia).
  assert (Hdo : do (RiderRequest 0 0) three_idle
                = Ok ([Pickup 3 0 0; Cancellation 20 0],
                      notify (set_driver three_idle 0%nat
                                (heading amy (mkLocation 0 3)))
                             (mkNotification 0 RIDER REQUEST "ann"
                                (Some (mkLocation 0 3)))))
    by reflexivity.
  split.
  - apply (X16_no_event_in_the_past _ _ _ _ Hp Hs Hdo).
    left. reflexivity.
  - apply (X16_no_event_in_the_past _ _ _ _ Hp Hs Hdo).
    right. left. reflexivity.
Defined.

Lemma length_list_remove (r : ref) (l : list ref) :
  (List.length (list_remove r l) <= List.length l)%nat.
Proof.
  induction l as [ | x l IH]; simpl; [ lia | ].
  destruct (Nat.eqb x r); simpl; lia.
Qed.

Lemma weight_positive (e : Event) : 0 < weight e.
Proof. destruct e; simpl; lia. Qed.

Lemma pending_nonneg (q : list Event) (w : World) : 0 <= pending q w.
Proof.
  unfold pending. induction q as [ | e q IH]; cbn [fold_right]; [ lia | ].
  pose proof (weight_positive e). lia.
Qed.

(** The events returned and the riders left waiting weigh less than the
    event executed and the riders who waited. *)
Lemma do_decreases (e : Event) (w w' : World) (evs : list Event) :
  do e w = Ok (evs, w') ->
  pending evs w' < pending [e] w.
Proof.
  unfold pending.
  destruct e as [t r | t d | t r | t r d | t r d]; cbn [do]; intros H.
  - apply RiderRequest_do_inv in H. cbv zeta in H.
    destruct H as [[-> Hw] | (d & tt & _ & _ & _ & -> & Hw)];
      destruct Hw as (_ & _ & Hl & _); rewrite Hl; cbn [fold_right weight].
    + rewrite length_app. cbn [List.length]. lia.
    + lia.
  - apply DriverRequest_do_inv in H. cbv zeta in H.
    destruct H as (reg & _ & [(Hwl & -> & Hw) | (h & rest & tt & Hwl & _ & -> & Hw)]);
      destruct Hw as (_ & _ & Hl & _); rewrite Hl, Hwl; cbn [fold_right weight List.length]; lia.
  - apply Cancellation_do_inv in H.
    destruct H as (-> & [[_ ->] | [_ Hw]]); cbn [fold_right weight]; [ lia | ].
    destruct Hw as (_ & _ & Hl & _). rewrite Hl.
    assert (Hle : (List.length (waiting_list (cancel_ride r w))
                   <= List.length (waiting_list w))%nat).
    { unfold cancel_ride. destruct (rider_in r (waiting_list w));
        cbn [set_waiting_list waiting_list];
        [ apply length_list_remove | lia ]. }
    lia.
  - apply Pickup_do_inv in H. cbv zeta in H.
    destruct H as [(_ & tt & _ & -> & Hw) | [(_ & -> & Hw) | (_ & -> & Hw)]];
      destruct Hw as (_ & _ & Hl & _); rewrite Hl; cbn [fold_right weight]; lia.
  - apply Dropoff_do_inv in H.
    destruct H as (-> & _ & _ & Hl & _). rewrite Hl. cbn [fold_right weight]. lia.
Qed.

(** X17: every step of a run makes the pending work smaller, whatever the
    order in which the queue hands out its events.  Taking any event out of
    a queue, executing it and putting the events it returns back gives a
    queue and a waiting list that weigh strictly less, and the weight is
    never negative. *)
Theorem X17_every_step_reduces_pending_work
    (e : Event) (w w' : World) (evs before after : list Event) :
  do e w = Ok (evs, w') ->
  0 <= pending (before ++ evs ++ after) w' /\
  pending (before ++ evs ++ after) w' < pending (before ++ e :: after) w.
Proof.
  intros Hdo. split; [ apply pending_nonneg | ].
  pose proof (do_decreases e w w' evs Hdo) as Hlt.
  unfold pending in *. rewrite !fold_right_app.
  cbn [fold_right] in *.
  assert (Hfold : forall (l : list Event) (z : Z),
             fold_right (fun e acc => weight e + acc) z l
             = fold_right (fun e acc => weight e + acc) 0 l + z).
  { induction l as [ | x l IH]; intros z; simpl; [ lia | ].
    rewrite IH. lia. }
  rewrite (Hfold before
             (fold_right (fun e acc => weight e + acc)
                (fold_right (fun e acc => weight e + acc) 0 after) evs)).
  rewrite (Hfold before
             (weight e + fold_right (fun e acc => weight e + acc) 0 after)).
  rewrite (Hfold evs (fold_right (fun e acc => weight e + acc) 0 after)).
  lia.
Qed.

Lemma X17_every_step_reduces_pending_work_witness :
  0 <= pending ([Dropoff 30 1 1] ++ [Pickup 3 0 0; Cancellation 20 0]
                ++ [DriverRequest 9 2])
         (notify (set_driver three_idle 0%nat (heading amy (mkLocation 0 3)))
                 (mkNotification 0 RIDER REQUEST "ann"
                    (Some (mkLocation 0 3)))) /\
  pending ([Dropoff 30 1 1] ++ [Pickup 3 0 0; Cancellation 20 0]
           ++ [DriverRequest 9 2])
    (notify (set_driver three_idle 0%nat (heading amy (mkLocation 0 3)))
            (mkNotification 0 RIDER REQUEST "ann" (Some (mkLocation 0 3))))
  < pending ([Dropoff 30 1 1] ++ RiderRequest 0 0 :: [DriverRequest 9 2])
      three_idle.
Proof.
  apply (X17_every_step_reduces_pending_work (RiderRequest 0 0) three_idle).
  reflexivity.
Defined.

Lemma pending_permutation (q q' : list Event) (w : World) :
  Permutation q q' -> pending q w = pending q' w.
Proof.
  unfold pending. intros H. f_equal.
  induction H as [ | x l l' _ IH | x y l | l l' l'' _ IH1 _ IH2];
    cbn [fold_right]; lia.
Qed.

Lemma pending_replace (e : Event) (evs before after : list Event)
    (w w' : World) :
  pending evs w' < pending [e] w ->
  pending (before ++ evs ++ after) w' < pending (before ++ e :: after) w.
Proof.
  unfold pending. intros Hlt. rewrite !fold_right_app.
  cbn [fold_right] in *.
  assert (Hfold : forall (l : list Event) (z : Z),
             fold_right (fun e acc => weight e + acc) z l
             = fold_right (fun e acc => weight e + acc) 0 l + z).
  { induction l as [ | x l IH]; intros z; cbn [fold_right]; [ lia | ].
    rewrite IH. lia. }
  rewrite (Hfold before
             (fold_right (fun e acc => weight e + acc)
                (fold_right (fun e acc => weight e + acc) 0 after) evs)).
  rewrite (Hfold before
             (weight e + fold_right (fun e acc => weight e + acc) 0 after)).
  rewrite (Hfold evs (fold_right (fun e acc => weight e + acc) 0 after)).
  lia.
Qed.

Lemma turns_bound (k : nat) (a c : list Event * World) :
  turns k a c ->
  Z.of_nat k + pending (fst c) (snd c) <= pending (fst a) (snd a) /\
  reach (snd a) (snd c).
Proof.
  induction 1 as [a | k a b c Hturn _ [IHle IHreach]].
  - split; [ simpl; lia | apply reach_refl ].
  - inversion Hturn as [q0 q0' before after evs e w0 w0' Hq Hdo Hperm E1 E2].
    subst a b. cbn [fst snd] in *.
    assert (Hlt : pending q0' w0' < pending q0 w0).
    { rewrite (pending_permutation _ _ w0' Hperm). rewrite Hq.
      apply pending_replace. apply (do_decreases _ _ _ _ Hdo). }
    split; [ lia | ].
    apply (reach_step w0 w0' (snd c) e evs Hdo IHreach).
Qed.

(** X18: a run comes to an end, and its states are those of the events it
    executed.  Whatever the order in which the queue hands out its events,
    [k] turns of the loop of [Simulation.run] started with the queue [q]
    and the state [w] use up at least [k] units of pending work, so that
    [k] is at most [pending q w]; and the state they end in is reached from
    [w] by executing events. *)
Theorem X18_run_is_bounded
    (k : nat) (q q' : list Event) (w w' : World) :
  turns k (q, w) (q', w') ->
  Z.of_nat k + pending q' w' <= pending q w /\
  Z.of_nat k <= pending q w /\
  reach w w'.
Proof.
  intros H. destruct (turns_bound k _ _ H) as [Hle Hreach].
  cbn [fst snd] in *. pose proof (pending_nonneg q' w').
  repeat split; [ exact Hle | lia | exact Hreach ].
Qed.

Lemma X18_run_is_bounded_witness :
  Z.of_nat 1 + pending [Pickup 3 0 0; Cancellation 20 0; DriverRequest 9 2]
                 (notify (set_driver three_idle 0%nat
                            (heading amy (mkLocation 0 3)))
                         (mkNotification 0 RIDER REQUEST "ann"
                            (Some (mkLocation 0 3))))
  <= pending [DriverRequest 9 2; RiderRequest 0 0] three_idle /\
  Z.of_nat 1 <= pending [DriverRequest 9 2; RiderRequest 0 0] three_idle /\
  reach three_idle
    (notify (set_driver three_idle 0%nat (heading amy (mkLocation 0 3)))
            (mkNotification 0 RIDER REQUEST "ann" (Some (mkLocation 0 3)))).
Proof.
  apply (X18_run_is_bounded 1
           [DriverRequest 9 2; RiderRequest 0 0]
           [Pickup 3 0 0; Cancellation 20 0; DriverRequest 9 2]).
  eapply turns_more; [ | apply turns_none ].
  apply (turn_do _ _ [DriverRequest 9 2] []
           [Pickup 3 0 0; Cancellation 20 0] (RiderRequest 0 0)).
  - reflexivity.
  - reflexivity.
  - simpl. apply Permutation_sym.
    apply (Permutation_cons_append [Pickup 3 0 0; Cancellation 20 0]
             (DriverRequest 9 2)).
Defined.

(** ** What the monitor is told *)

(** X19: every event reports to the monitor under its own timestamp and
    only adds to what was reported before.  A rider request, a driver
    request and a dropoff send one notification each; a cancellation sends
    one unless the rider is Satisfied, when it sends none; a pickup sends
    two when the rider is Waiting and none otherwise. *)
Theorem X19_notifications_of_an_event
    (e : Event) (w w' : World) (evs : list Event) :
  do e w = Ok (evs, w') ->
  exists ns,
    monitor w' = monitor w ++ ns /\
    List.length ns = notifications e w /\
    (forall n, In n ns -> n_time n = timestamp e).
Proof.
  destruct e as [t r | t d | t r | t r d | t r d]; cbn [do]; intros H.
  - apply RiderRequest_do_inv in H. cbv zeta in H.
    destruct H as [[_ Hw] | (d & tt & _ & _ & _ & _ & Hw)];
      destruct Hw as (_ & _ & _ & _ & Hm);
      eexists; (split; [ exact Hm | split; [ reflexivity | ] ]);
      intros n [<- | []]; reflexivity.
  - apply DriverRequest_do_inv in H. cbv zeta in H.
    destruct H as (reg & _ & [(_ & _ & Hw) | (h & rest & tt & _ & _ & _ & Hw)]);
      destruct Hw as (_ & _ & _ & _ & Hm);
      eexists; (split; [ exact Hm | split; [ reflexivity | ] ]);
      intros n [<- | []]; reflexivity.
  - apply Cancellation_do_inv in H.
    destruct H as (_ & [[Hs ->] | [Hs Hw]]).
    + exists []. rewrite app_nil_r. cbn [notifications]. rewrite Hs.
      repeat split. intros n [].
    + destruct Hw as (_ & _ & _ & _ & Hm).
      eexists. split; [ exact Hm | split ].
      * cbn [notifications].
        destruct (status (riders w r)); try reflexivity. contradiction.
      * intros n [<- | []]. reflexivity.
  - apply Pickup_do_inv in H. cbv zeta in H.
    destruct H as [(Hs & tt & _ & _ & Hw) | [(Hs & _ & Hw) | (Hs & _ & Hw)]];
      destruct Hw as (_ & _ & _ & _ & Hm); cbn [notifications]; rewrite Hs.
    + eexists. split; [ rewrite Hm, <- app_assoc; reflexivity | ].
      split; [ reflexivity | ].
      intros n [<- | [<- | []]]; reflexivity.
    + exists []. rewrite app_nil_r. repeat split; [ exact Hm | intros n [] ].
    + exists []. rewrite app_nil_r. repeat split; [ exact Hm | intros n [] ].
  - apply Dropoff_do_inv in H.
    destruct H as (_ & _ & _ & _ & _ & Hm).
    eexists. split; [ exact Hm | split; [ reflexivity | ] ].
    intros n [<- | []]. reflexivity.
Qed.

Lemma X19_notifications_of_an_event_witness :
  exists ns,
    monitor ann_cancelled = monitor three_idle ++ ns /\
    List.length ns = notifications (Cancellation 20 0) three_idle /\
    (forall n, In n ns -> n_time n = timestamp (Cancellation 20 0)).
Proof.
  apply (X19_notifications_of_an_event (Cancellation 20 0)
           three_idle ann_cancelled []).
  reflexivity.
Defined.

(** ** The two fates of a rider *)

Lemma list_remove_snoc (r : ref) (l : list ref) :
  ~ In r l -> list_remove r (l ++ [r]) = l.
Proof.
  induction l as [ | x l IH]; intros Hl; simpl.
  - rewrite Nat.eqb_refl. reflexivity.
  - destruct (Nat.eqb_spec x r) as [E | _].
    + exfalso. apply Hl. left. exact E.
    + f_equal. apply IH. intros H. apply Hl. right. exact H.
Qed.

(** X20: a rider nobody comes for gives up and leaves no trace in the
    dispatcher.  With no idle driver registered, the request of a rider who
    is not waiting yet and not Satisfied returns just the Cancellation at
    the time of the request plus the patience and puts the rider on the
    waiting list; executing that Cancellation next returns nothing, marks
    the rider Cancelled and gives back the waiting list of before the
    request; drivers and registry are as they were. *)
Theorem X20_unmatched_rider_gives_up (t : Z) (r : ref) (w : World) :
  (forall e, In e (driver_registry w) -> is_idle (drivers w e) = false) ->
  ~ In r (waiting_list w) ->
  status (riders w r) <> SATISFIED ->
  exists w1 w2,
    do (RiderRequest t r) w
    = Ok ([Cancellation (t + patience (riders w r)) r], w1) /\
    waiting_list w1 = waiting_list w ++ [r] /\
    do (Cancellation (t + patience (riders w r)) r) w1 = Ok ([], w2) /\
    waiting_list w2 = waiting_list w /\
    status (riders w2 r) = CANCELLED /\
    drivers w2 = drivers w /\
    driver_registry w2 = driver_registry w.
Proof.
  intros Hbusy Hnew Hs.
  pose proof (request_driver_none_idle r w Hbusy) as Hreq.
  eexists. eexists.
  split.
  { cbn [do]. unfold RiderRequest_do.
    rewrite request_driver_notify, Hreq. reflexivity. }
  split; [ reflexivity | ].
  match goal with
  | |- do (Cancellation ?t' r) ?w1 = _ /\ _ =>
      destruct (Cancellation_do_cases t' r w1) as [[Hs' _] | [_ Hc]];
        [ exfalso; apply Hs; exact Hs' | ];
        destruct (cancelled_state t' r w1) as (Hwl & Hri & Hdr & Hrg)
  end.
  split; [ exact Hc | ].
  split; [ | split; [ | split; [ exact Hdr | exact Hrg ] ] ].
  - rewrite Hwl. unfold cancel_ride.
    cbn [notify set_waiting_list waiting_list].
    assert (Hin : In r (waiting_list w ++ [r]))
      by (apply in_or_app; right; left; reflexivity).
    rewrite (proj2 (rider_in_In r _) Hin).
    cbn [set_waiting_list waiting_list].
    apply list_remove_snoc. exact Hnew.
  - rewrite Hri. unfold upd. rewrite Nat.eqb_refl. reflexivity.
Qed.

Lemma X20_unmatched_rider_gives_up_witness :
  exists w1 w2,
    do (RiderRequest 5 0) bea_busy
    = Ok ([Cancellation (5 + patience (riders bea_busy 0%nat)) 0], w1) /\
    waiting_list w1 = waiting_list bea_busy ++ [0%nat] /\
    do (Cancellation (5 + patience (riders bea_busy 0%nat)) 0) w1
    = Ok ([], w2) /\
    waiting_list w2 = waiting_list bea_busy /\
    status (riders w2 0%nat) = CANCELLED /\
    drivers w2 = drivers bea_busy /\
    driver_registry w2 = driver_registry bea_busy.
Proof.
  apply (X20_unmatched_rider_gives_up 5 0%nat bea_busy).
  - intros e He. simpl in He. destruct He as [<- | []]. reflexivity.
  - simpl. intros [].
  - simpl. discriminate.
Defined.

Lemma request_driver_some (r d : ref) (w w' : World) :
  request_driver r w = Ok (Some d, w') ->
  In d (driver_registry w) /\ is_idle (drivers w d) = true /\ w' = w /\
  reaches (drivers w d) (origin (riders w r)).
Proof.
  unfold request_driver.
  destruct (List.length (driver_registry w) =? 0)%nat; [ discriminate | ].
  destruct (scan_registry w (origin (riders w r)) (driver_registry w)
              None 0) as [[[fd | ] ft] | x] eqn:Hscan; simpl;
    intros H; try discriminate H.
  injection H as -> <-.
  destruct (scan_registry_result _ _ _ _ _ _ _ Hscan) as [E | [Hin Hi]];
    [ discriminate E | ].
  repeat split; try assumption;
    apply (scan_registry_ok_reaches _ _ _ _ _ _ Hscan d Hin Hi).
Qed.

(** A pickup returns when the ride time, from where the driver arrives, is
    computed. *)
Lemma Pickup_do_returns (t : Z) (r d : ref) (w : World) :
  reaches (arrived (drivers w d)) (r_destination (riders w r)) ->
  exists evs w1, Pickup_do t r d w = Ok (evs, w1).
Proof.
  intros [tt Hgt].
  assert (Hup : forall (f : ref -> Driver) v, upd f d v d = v)
    by (intros f v; unfold upd; rewrite Nat.eqb_refl; reflexivity).
  unfold Pickup_do, end_drive. cbn [bind set_driver riders].
  destruct (status (riders w r)); cbn [Status_eqb];
    try (eexists; eexists; reflexivity).
  cbn [notify set_driver drivers riders].
  cbn [d_id location speed is_idle destination].
  eexists. eexists. rewrite !Hup. fold (arrived (drivers w d)).
  rewrite start_ride_eq, Hgt. cbn [bind]. reflexivity.
Qed.

(** X21: a rider a driver is found for is delivered.  When the dispatcher
    picks driver [d] for a Waiting rider and the ride time from the rider's
    origin to the rider's destination is computed, the request returns the
    Pickup at
    the time of the request plus the driver's travel time to the rider's
    origin, and the Cancellation; that Pickup returns the Dropoff a further
    ride time later, the ride time being the rounded quotient of the
    distance from the rider's origin to the rider's destination by the
    driver's speed; that Dropoff returns a driver request at its own time
    and leaves the driver idle at the rider's destination; and the
    Cancellation, whenever it comes after the pickup, changes nothing.  The
    rider ends Satisfied; waiting list and registry are never touched. *)
Theorem X21_matched_rider_is_delivered (t : Z) (r d : ref) (w w0 : World) :
  request_driver r w = Ok (Some d, w0) ->
  status (riders w r) = WAITING ->
  (exists t2,
      round_div (manhattan_distance (origin (riders w r))
                                    (r_destination (riders w r)))
                (speed (drivers w d)) = Ok t2) ->
  exists t1 t2 w1 w2 w3,
    get_travel_time (drivers w d) (origin (riders w r)) = Ok t1 /\
    round_div (manhattan_distance (origin (riders w r))
                                  (r_destination (riders w r)))
              (speed (drivers w d)) = Ok t2 /\
    do (RiderRequest t r) w
    = Ok ([Pickup (t + t1) r d;
           Cancellation (t + patience (riders w r)) r], w1) /\
    do (Pickup (t + t1) r d) w1 = Ok ([Dropoff (t + t1 + t2) r d], w2) /\
    do (Dropoff (t + t1 + t2) r d) w2
    = Ok ([DriverRequest (t + t1 + t2) d], w3) /\
    do (Cancellation (t + patience (riders w r)) r) w2 = Ok ([], w2) /\
    do (Cancellation (t + patience (riders w r)) r) w3 = Ok ([], w3) /\
    drivers w3 d
    = mkDriver (d_id (drivers w d)) (Some (r_destination (riders w r)))
               (speed (drivers w d)) true None /\
    status (riders w3 r) = SATISFIED /\
    waiting_list w3 = waiting_list w /\
    driver_registry w3 = driver_registry w.
Proof.
  intros Hreq Hst [t2' Hride].
  destruct (request_driver_some r d w w0 Hreq) as (_ & _ & -> & [t1 Ht1]).
  assert (Hup : forall (f : ref -> Driver) v, upd f d v d = v)
    by (intros f v; unfold upd; rewrite Nat.eqb_refl; reflexivity).
  assert (Hupr : forall (f : ref -> Rider) v, upd f r v r = v)
    by (intros f v; unfold upd; rewrite Nat.eqb_refl; reflexivity).
  set (w1 := set_driver
               (notify w (mkNotification t RIDER REQUEST (r_id (riders w r))
                            (Some (origin (riders w r)))))
               d (heading (drivers w d) (origin (riders w r)))).
  assert (H1 : do (RiderRequest t r) w
               = Ok ([Pickup (t + t1) r d;
                      Cancellation (t + patience (riders w r)) r], w1)).
  { cbn [do]. unfold RiderRequest_do.
    rewrite request_driver_notify, Hreq. cbn [bind notify drivers riders].
    rewrite (start_drive_ok _ _ _ Ht1). reflexivity. }
  assert (Hd1 : drivers w1 d = heading (drivers w d) (origin (riders w r)))
    by (unfold w1; cbn [set_driver drivers]; apply Hup).
  assert (Hr1 : riders w1 = riders w) by reflexivity.
  destruct (Pickup_do_returns (t + t1) r d w1) as (evs & w2 & H2).
  { rewrite Hd1, Hr1. exists t2'. exact Hride. }
  pose proof H2 as H2'. apply Pickup_do_inv in H2'. cbv zeta in H2'.
  rewrite Hr1, Hd1 in H2'.
  destruct H2' as [(_ & t2 & Ht2 & -> & Hw2) | [(E & _) | (E & _)]];
    try (rewrite Hst in E; discriminate E).
  destruct Hw2 as (Hd2 & Hr2 & Hl2 & Hg2 & _).
  assert (Hex3 : exists w3, Dropoff_do (t + t1 + t2) r d w2
                            = Ok ([DriverRequest (t + t1 + t2) d], w3))
    by (unfold Dropoff_do, end_ride; cbn [bind]; eexists; reflexivity).
  destruct Hex3 as (w3 & H3).
  pose proof H3 as H3'. apply Dropoff_do_inv in H3'.
  destruct H3' as (_ & Hd3 & Hr3 & Hl3 & Hg3 & _).
  assert (Hs2 : status (riders w2 r) = SATISFIED)
    by (rewrite Hr2, Hupr; reflexivity).
  assert (Hs3 : status (riders w3 r) = SATISFIED)
    by (rewrite Hr3; exact Hs2).
  exists t1, t2, w1, w2, w3.
  split; [ exact Ht1 | ].
  split.
  { unfold get_travel_time, arrived, heading in Ht2.
    cbn [d_id location speed is_idle destination] in Ht2. exact Ht2. }
  split; [ exact H1 | split; [ exact H2 | split; [ exact H3 | ] ] ].
  split.
  { destruct (Cancellation_do_cases (t + patience (riders w r)) r w2)
      as [[_ Hc] | [Hn _]]; [ exact Hc | contradiction ]. }
  split.
  { destruct (Cancellation_do_cases (t + patience (riders w r)) r w3)
      as [[_ Hc] | [Hn _]]; [ exact Hc | contradiction ]. }
  split.
  { rewrite Hd3. unfold upd at 1. rewrite Nat.eqb_refl.
    rewrite Hd2, Hup. unfold arrived, heading.
    cbn [d_id location speed is_idle destination]. reflexivity. }
  split; [ exact Hs3 | ].
  split; [ rewrite Hl3, Hl2; reflexivity | rewrite Hg3, Hg2; reflexivity ].
Qed.

Lemma X21_matched_rider_is_delivered_witness :
  exists t1 t2 w1 w2 w3,
    get_travel_time (drivers three_idle 0%nat)
      (origin (riders three_idle 0%nat)) = Ok t1 /\
    round_div (manhattan_distance (origin (riders three_idle 0%nat))
                 (r_destination (riders three_idle 0%nat)))
              (speed (drivers three_idle 0%nat)) = Ok t2 /\
    do (RiderRequest 0 0) three_idle
    = Ok ([Pickup (0 + t1) 0 0;
           Cancellation (0 + patience (riders three_idle 0%nat)) 0], w1) /\
    do (Pickup (0 + t1) 0 0) w1 = Ok ([Dropoff (0 + t1 + t2) 0 0], w2) /\
    do (Dropoff (0 + t1 + t2) 0 0) w2
    = Ok ([DriverRequest (0 + t1 + t2) 0], w3) /\
    do (Cancellation (0 + patience (riders three_idle 0%nat)) 0) w2
    = Ok ([], w2) /\
    do (Cancellation (0 + patience (riders three_idle 0%nat)) 0) w3
    = Ok ([], w3) /\
    drivers w3 0%nat
    = mkDriver (d_id (drivers three_idle 0%nat))
               (Some (r_destination (riders three_idle 0%nat)))
               (speed (drivers three_idle 0%nat)) true None /\
    status (riders w3 0%nat) = SATISFIED /\
    waiting_list w3 = waiting_list three_idle /\
    driver_registry w3 = driver_registry three_idle.
Proof.
  apply (X21_matched_rider_is_delivered 0 0%nat 0%nat three_idle three_idle).
  - reflexivity.
  - reflexivity.
  - exists 7. vm_compute. reflexivity.
Defined.

(** ** event.py: the comparisons of events *)

(** X22: the six comparison methods of Event look at the timestamp only.
    They form a total preorder: [<=] is reflexive, transitive and total, [<]
    is its strict part, and two events with the same timestamp compare equal
    and are not ordered by [<], whatever their kind and payload.  [!=], [>]
    and [>=] are the negations of [==], [<=] and [<]. *)
Theorem X22_event_comparisons_by_timestamp (a b c : Event) :
  Event_le a a = true /\
  (Event_le a b = true \/ Event_le b a = true) /\
  (Event_le a b = true -> Event_le b c = true -> Event_le a c = true) /\
  (Event_lt a b = true <-> timestamp a < timestamp b) /\
  (Event_lt a b = true <-> Event_le a b = true /\ Event_le b a = false) /\
  (Event_eq a b = true <-> timestamp a = timestamp b) /\
  (timestamp a = timestamp b ->
   Event_lt a b = false /\ Event_lt b a = false /\ Event_eq a b = true) /\
  Event_ne a b = negb (Event_eq a b) /\
  Event_gt a b = Event_lt b a /\
  Event_ge a b = Event_le b a.
Proof.
  unfold Event_le, Event_lt, Event_eq, Event_ne, Event_gt, Event_ge.
  repeat match goal with |- _ /\ _ => split end.
  - apply Z.leb_refl.
  - destruct (Z.leb_spec (timestamp a) (timestamp b)); [ left; reflexivity | ].
    right. apply Z.leb_le. lia.
  - rewrite !Z.leb_le. lia.
  - apply Z.ltb_lt.
  - rewrite Z.ltb_lt, Z.leb_le, Z.leb_gt. lia.
  - apply Z.eqb_eq.
  - intros E. rewrite E, Z.ltb_irrefl, Z.eqb_refl. repeat split.
  - reflexivity.
  - rewrite (Z.ltb_antisym (timestamp a) (timestamp b)). reflexivity.
  - rewrite (Z.leb_antisym (timestamp a) (timestamp b)). reflexivity.
Qed.

Lemma X22_event_comparisons_by_timestamp_witness :
  Event_lt (Cancellation 3 1) (Pickup 7 1 0) = true <-> 3 < 7.
Proof.
  exact (proj1 (proj2 (proj2 (proj2
    (X22_event_comparisons_by_timestamp (Cancellation 3 1) (Pickup 7 1 0)
                                 (Dropoff 9 1 0)))))).
Defined.
